(** * GovContracts loader: a shallow embedding of [scripts/load_contracts.py]

    The script queries a public search API once per keyword, merges the
    batches while dropping records whose generated identifier was already
    seen, normalises the survivors into a fixed 13-column table, writes the
    table to a CSV file and then tries to load it into a warehouse.

    Modelling choices.
    - Values coming out of [response.json()] are JSON values; a JSON number
      is represented by an integer (fractional and floating-point values are
      outside the model).
    - A Python [dict] obtained from a JSON object is the list of its items
      in insertion order; keys are unique, [get] returns the first match.
    - The [seen_ids] set is a [gset] of hash keys; Python hashes [True] and
      [1] to the same key, and refuses lists and dicts.
    - Effects ([print], HTTP, CSV, warehouse) are recorded in a trace; an
      uncaught exception ends the run with [Raise].
    - The behaviour of external collaborators (the search API, the
      warehouse, the date parser of pandas) is a parameter of the run;
      [print] and [to_csv] are taken to succeed.
    - [except Exception] catches every exception of the model.
    - pandas is modelled by its documented behaviour: [to_datetime] with
      [errors="coerce"] turns a cell that does not parse into NaT,
      [drop_duplicates] keeps the first row of every key. *)

From stdpp Require Import base numbers strings list gmap pretty.

Local Open Scope string_scope.
Local Open Scope Z_scope.
Local Open Scope list_scope.
Local Set Warnings "-register-all,-clear-no-such-hyp".
Set Default Proof Using "Type".

(** ** Python values as produced by [json.loads] *)

Inductive json : Type :=
| JNull
| JBool (b : bool)
| JNum (n : Z)
| JStr (s : string)
| JArr (items : list json)
| JObj (members : list (string * json)).

(** Truth value testing: [None], [False], [0], [""], [[]] and [{}] are
    falsy, everything else is truthy. *)
Definition truthy (v : json) : bool :=
  match v with
  | JNull => false
  | JBool b => b
  | JNum n => negb (n =? 0)
  | JStr s => negb (String.eqb s "")
  | JArr items => match items with [] => false | _ => true end
  | JObj members => match members with [] => false | _ => true end
  end.

(** [x or y] *)
Definition py_or (x y : json) : json := if truthy x then x else y.

(** Name of the Python type of a value, as used in error messages. *)
Definition type_name (v : json) : string :=
  match v with
  | JNull => "NoneType"
  | JBool _ => "bool"
  | JNum _ => "int"
  | JStr _ => "str"
  | JArr _ => "list"
  | JObj _ => "dict"
  end.

(** ** Exceptions and outcomes *)

Inductive exn : Type := Exn (cls : string) (msg : string).

Definition exn_msg (e : exn) : string := let 'Exn _ m := e in m.

Inductive outcome (A : Type) : Type :=
| Ok (a : A)
| Raise (e : exn).
Arguments Ok {A} a.
Arguments Raise {A} e.

Global Instance outcome_ret : MRet outcome := λ A a, Ok a.
Global Instance outcome_bind : MBind outcome := λ A B f m,
  match m with
  | Ok a => f a
  | Raise e => Raise e
  end.

Global Instance outcome_fmap : FMap outcome := λ A B f m,
  match m with
  | Ok a => Ok (f a)
  | Raise e => Raise e
  end.

(** Monadic left fold: the body of a [for] loop threaded over a list. *)
Fixpoint foldM {S A : Type} (step : S → A → outcome S) (s : S) (l : list A)
  : outcome S :=
  match l with
  | [] => Ok s
  | x :: l' => s' ← step s x; foldM step s' l'
  end.

Fixpoint mapM {A B : Type} (f : A → outcome B) (l : list A) : outcome (list B) :=
  match l with
  | [] => Ok []
  | x :: l' => y ← f x; ys ← mapM f l'; Ok (y :: ys)
  end.

(** ** Hash keys of Python values

    [hash(True) == hash(1)] and [True == 1], so booleans and numbers share
    keys; lists and dicts are unhashable. *)

Inductive pykey : Type :=
| KNone
| KNum (n : Z)
| KStr (s : string).

Global Instance pykey_eq_dec : EqDecision pykey.
Proof. solve_decision. Defined.

Global Instance pykey_countable : Countable pykey.
Proof.
  refine (inj_countable'
    (λ k, match k with
          | KNone => inl ()
          | KNum n => inr (inl n)
          | KStr s => inr (inr s)
          end)
    (λ x, match x with
          | inl _ => KNone
          | inr (inl n) => KNum n
          | inr (inr s) => KStr s
          end) _).
  by intros [].
Defined.

Definition py_key (v : json) : option pykey :=
  match v with
  | JNull => Some KNone
  | JBool b => Some (KNum (if b then 1 else 0))
  | JNum n => Some (KNum n)
  | JStr s => Some (KStr s)
  | JArr _ | JObj _ => None
  end.

(** [hash(v)], raising [TypeError] on lists and dicts. *)
Definition py_hash (v : json) : outcome pykey :=
  match py_key v with
  | Some k => Ok k
  | None => Raise (Exn "TypeError" ("unhashable type: '" +:+ type_name v +:+ "'"))
  end.

(** ** Dictionaries, iteration, length *)

Fixpoint assoc (k : string) (d : list (string * json)) : option json :=
  match d with
  | [] => None
  | (k', v) :: d' => if String.eqb k k' then Some v else assoc k d'
  end.

(** [d.get(k, dflt)]; only dicts have a [get] attribute. *)
Definition py_get (d : json) (k : string) (dflt : json) : outcome json :=
  match d with
  | JObj members => Ok (default dflt (assoc k members))
  | _ => Raise (Exn "AttributeError"
                 ("'" +:+ type_name d +:+ "' object has no attribute 'get'"))
  end.

Fixpoint chars (s : string) : list json :=
  match s with
  | EmptyString => []
  | String c s' => JStr (String c EmptyString) :: chars s'
  end.

(** [for r in v]: the items a loop over [v] visits. *)
Definition py_iter (v : json) : outcome (list json) :=
  match v with
  | JArr items => Ok items
  | JStr s => Ok (chars s)
  | JObj members => Ok (JStr <$> members.*1)
  | _ => Raise (Exn "TypeError" ("'" +:+ type_name v +:+ "' object is not iterable"))
  end.

(** [len(v)] for the values [py_iter] accepts. *)
Definition py_len (v : json) : nat :=
  match py_iter v with
  | Ok items => length items
  | Raise _ => 0%nat
  end.

(** ** The normalised table *)

(** One row of the output schema. The two date columns hold raw values
    before [pd.to_datetime] and timestamps (or NaT) after it, hence the
    parameter. *)
Record Row (D : Type) : Type := mkRow {
  INTERNAL_ID : json;
  AWARD_ID : json;
  GENERATED_INTERNAL_ID : json;
  RECIPIENT_NAME : json;
  AWARD_AMOUNT : json;
  DESCRIPTION : json;
  AWARDING_AGENCY : json;
  AWARDING_SUB_AGENCY : json;
  START_DATE : D;
  END_DATE : D;
  NAICS_CODE : json;
  NAICS_DESCRIPTION : json;
  PSC_CODE : json
}.
Arguments mkRow {D}.
Arguments INTERNAL_ID {D}.
Arguments AWARD_ID {D}.
Arguments GENERATED_INTERNAL_ID {D}.
Arguments RECIPIENT_NAME {D}.
Arguments AWARD_AMOUNT {D}.
Arguments DESCRIPTION {D}.
Arguments AWARDING_AGENCY {D}.
Arguments AWARDING_SUB_AGENCY {D}.
Arguments START_DATE {D}.
Arguments END_DATE {D}.
Arguments NAICS_CODE {D}.
Arguments NAICS_DESCRIPTION {D}.
Arguments PSC_CODE {D}.

(** A [datetime64[ns]] cell: nanoseconds since the epoch, [None] is NaT. *)
Definition Timestamp : Type := Z.
Abbreviation DataFrame := (list (Row (option Timestamp))).

(** ** Effects *)

(** The body of the search request (lines 38-63). *)
Record Params : Type := mkParams {
  keywords : list string;
  award_type_codes : list string;
  time_period : string * string;
  fields : list string;
  limit : Z;
  sort : string;
  order : string
}.

Inductive event : Type :=
| Print (line : string)
| Post (url : string) (params : Params) (timeout : Z)
| ToCsv (path : string) (df : DataFrame)
| Connect (connection_name database schema warehouse : string)
| WritePandas (df : DataFrame) (table : string)
| Close.

(** A computation emits events and then returns or raises. *)
Definition Run (A : Type) : Type := list event * outcome A.

Global Instance Run_ret : MRet Run := λ A a, ([], Ok a).
Global Instance Run_bind : MBind Run := λ A B f m,
  match m with
  | (t, Ok a) => let '(t', r) := f a in (t ++ t', r)
  | (t, Raise e) => (t, Raise e)
  end.

Definition emit (ev : event) : Run unit := ([ev], Ok ()).
Definition print (line : string) : Run unit := emit (Print line).
Definition lift {A : Type} (o : outcome A) : Run A := ([], o).

(** [try: body except Exception as e: handler(e)] *)
Definition try_except {A : Type} (body : Run A) (handler : exn → Run A) : Run A :=
  match body with
  | (t, Ok a) => (t, Ok a)
  | (t, Raise e) => let '(t', r) := handler e in (t ++ t', r)
  end.

Fixpoint foldR {S A : Type} (step : S → A → Run S) (s : S) (l : list A) : Run S :=
  match l with
  | [] => mret s
  | x :: l' => s' ← step s x; foldR step s' l'
  end.

(** ** The outside world *)

(** What [requests.post] hands back: the status line and the result of
    decoding the body. *)
Record Response : Type := mkResponse {
  status_code : Z;
  reason : string;
  body_json : outcome json
}.

Record World : Type := mkWorld {
  (** [datetime.now().strftime("%Y-%m-%d")] *)
  today : string;
  (** [requests.post(url, json=params, timeout=60)] *)
  requests_post : Params → outcome Response;
  (** [snowflake.connector.connect(...)] *)
  snowflake_connect : outcome unit;
  (** [write_pandas(conn, df, ...)]: the number of rows loaded *)
  write_pandas : DataFrame → outcome Z;
  (** [conn.close()] *)
  conn_close : outcome unit
}.

(** ** Constants of the script *)

Definition nl : string := String (Ascii.ascii_of_nat 10) EmptyString.

Fixpoint str_mul (s : string) (n : nat) : string :=
  match n with
  | O => ""
  | S n' => s +:+ str_mul s n'
  end.

Definition USA_SPENDING_API : string :=
  "https://api.usaspending.gov/api/v2/search/spending_by_award/".

Definition SEARCH_KEYWORDS : list string :=
  [ "data analytics"; "artificial intelligence"; "machine learning";
    "data warehouse"; "data lake"; "cloud computing"; "big data";
    "data platform"; "data engineering"; "business intelligence";
    "Palantir"; "database"; "ETL"; "data integration" ].

Definition csv_path : string := "/tmp/govcontracts_data.csv".

(** ** [fetch_contracts] *)

(** [response.raise_for_status()]: 4xx and 5xx raise [HTTPError]. *)
Definition raise_for_status (r : Response) : outcome unit :=
  if bool_decide (400 ≤ status_code r < 600)
  then Raise (Exn "HTTPError" (pretty (status_code r) +:+ " Error: " +:+ reason r))
  else Ok ().

Definition build_params (w : World) (keyword : string) (lim : Z) : Params :=
  {| keywords := [keyword];
     award_type_codes := ["A"; "B"; "C"; "D"];
     time_period := ("2020-01-01", today w);
     fields := [ "Award ID"; "Recipient Name"; "Award Amount"; "Description";
                 "Awarding Agency"; "Awarding Sub Agency"; "Start Date";
                 "End Date"; "NAICS Code"; "NAICS Description";
                 "Product or Service Code" ];
     limit := lim;
     sort := "Award Amount";
     order := "desc" |}.

(** The [try] block, lines 66-69. *)
Definition fetch_try (w : World) (params : Params) : Run json :=
  emit (Post USA_SPENDING_API params 60);;
  response ← lift (requests_post w params);
  lift (raise_for_status response);;
  data ← lift (body_json response);
  lift (py_get data "results" (JArr [])).

(** The [except] block, lines 70-72. *)
Definition fetch_except (keyword : string) (e : exn) : Run json :=
  print ("Error fetching '" +:+ keyword +:+ "': " +:+ exn_msg e);;
  mret (JArr []).

Definition fetch_contracts (w : World) (keyword : string) (lim : Z) : Run json :=
  try_except (fetch_try w (build_params w keyword lim)) (fetch_except keyword).

(** The ways a fetch can fail: the request itself raises (network error,
    timeout), the status is not a success, the body does not decode, or the
    decoded body is not an object. *)
Inductive fetch_failure (w : World) (params : Params) : exn → Prop :=
| request_raises e :
    requests_post w params = Raise e →
    fetch_failure w params e
| status_not_success response e :
    requests_post w params = Ok response →
    raise_for_status response = Raise e →
    fetch_failure w params e
| body_not_json response e :
    requests_post w params = Ok response →
    raise_for_status response = Ok () →
    body_json response = Raise e →
    fetch_failure w params e
| body_not_object response data e :
    requests_post w params = Ok response →
    raise_for_status response = Ok () →
    body_json response = Ok data →
    py_get data "results" (JArr []) = Raise e →
    fetch_failure w params e.

(** ** The aggregation loop of [main] (lines 142-147) *)

Definition dedup_step (st : gset pykey * list json) (r : json)
  : outcome (gset pykey * list json) :=
  let '(seen_ids, new_results) := st in
  gen_id ← py_get r "generated_internal_id" JNull;
  if truthy gen_id then
    k ← py_hash gen_id;
    if decide (k ∈ seen_ids) then Ok (seen_ids, new_results)
    else Ok ({[k]} ∪ seen_ids, new_results ++ [r])
  else Ok (seen_ids, new_results).

(** One iteration of the keyword loop once the batch is known (lines
    142-149): returns the extended [all_contracts], the updated [seen_ids]
    and the number of new records. *)
Definition extend_with (st : list json * gset pykey) (results : json)
  : outcome (list json * gset pykey * nat) :=
  let '(all_contracts, seen_ids) := st in
  items ← py_iter results;
  '(seen_ids', new_results) ← foldM dedup_step (seen_ids, []) items;
  Ok (all_contracts ++ new_results, seen_ids', length new_results).

(** The aggregator on its own: the batches of all keywords, in order. *)
Definition aggregate (batches : list json) : outcome (list json) :=
  fst <$> foldM (λ st b, fst <$> extend_with st b) ([], ∅) batches.

(** ** [transform_contracts] *)

(** Lines 78-92. *)
Definition make_record (r : json) : outcome (Row json) :=
  internal_id ← py_get r "internal_id" JNull;
  award_id ← py_get r "Award ID" JNull;
  generated_internal_id ← py_get r "generated_internal_id" JNull;
  recipient_name ← py_get r "Recipient Name" JNull;
  award_amount ← py_get r "Award Amount" JNull;
  description ← py_get r "Description" JNull;
  awarding_agency ← py_get r "Awarding Agency" JNull;
  awarding_sub_agency ← py_get r "Awarding Sub Agency" JNull;
  start_date ← py_get r "Start Date" JNull;
  end_date ← py_get r "End Date" JNull;
  naics_code ← py_get r "NAICS Code" JNull;
  naics_description ← py_get r "NAICS Description" JNull;
  psc_code ← py_get r "Product or Service Code" JNull;
  Ok {| INTERNAL_ID := internal_id;
        AWARD_ID := award_id;
        GENERATED_INTERNAL_ID := generated_internal_id;
        RECIPIENT_NAME := recipient_name;
        AWARD_AMOUNT := py_or award_amount (JNum 0);
        DESCRIPTION := description;
        AWARDING_AGENCY := awarding_agency;
        AWARDING_SUB_AGENCY := awarding_sub_agency;
        START_DATE := start_date;
        END_DATE := end_date;
        NAICS_CODE := naics_code;
        NAICS_DESCRIPTION := naics_description;
        PSC_CODE := psc_code |}.

Definition with_dates {D E : Type} (r : Row D) (s e : E) : Row E :=
  {| INTERNAL_ID := INTERNAL_ID r;
     AWARD_ID := AWARD_ID r;
     GENERATED_INTERNAL_ID := GENERATED_INTERNAL_ID r;
     RECIPIENT_NAME := RECIPIENT_NAME r;
     AWARD_AMOUNT := AWARD_AMOUNT r;
     DESCRIPTION := DESCRIPTION r;
     AWARDING_AGENCY := AWARDING_AGENCY r;
     AWARDING_SUB_AGENCY := AWARDING_SUB_AGENCY r;
     START_DATE := s;
     END_DATE := e;
     NAICS_CODE := NAICS_CODE r;
     NAICS_DESCRIPTION := NAICS_DESCRIPTION r;
     PSC_CODE := PSC_CODE r |}.

(** [df.drop_duplicates(subset=["GENERATED_INTERNAL_ID"])]: pandas keeps
    the first row of every key, treats all missing values as one key, and
    raises [TypeError] on an unhashable cell. *)
Definition drop_step (st : gset pykey * DataFrame) (row : Row (option Timestamp))
  : outcome (gset pykey * DataFrame) :=
  let '(seen, kept) := st in
  k ← py_hash (GENERATED_INTERNAL_ID row);
  if decide (k ∈ seen) then Ok (seen, kept)
  else Ok ({[k]} ∪ seen, kept ++ [row]).

Definition drop_duplicates (df : DataFrame) : outcome DataFrame :=
  snd <$> foldM drop_step (∅, []) df.

(** A stand-in for the date parser in examples: it accepts [YYYY-MM-DD]
    strings and numbers the day as [yyyymmdd]. *)
Definition digit (c : Ascii.ascii) : option Z :=
  let n := Z.of_nat (Ascii.nat_of_ascii c) in
  if bool_decide (48 ≤ n ≤ 57) then Some (n - 48) else None.

Fixpoint digits (acc : Z) (s : string) : option Z :=
  match s with
  | EmptyString => Some acc
  | String c s' => d ← digit c; digits (10 * acc + d) s'
  end.

Definition iso_date (col : list json) (v : json) : option Timestamp :=
  match v with
  | JStr s =>
      y ← digits 0 (String.substring 0 4 s);
      m ← digits 0 (String.substring 5 2 s);
      d ← digits 0 (String.substring 8 2 s);
      if bool_decide (String.length s = 10%nat ∧
                      String.substring 4 1 s = "-" ∧
                      String.substring 7 1 s = "-" ∧
                      1 ≤ m ≤ 12 ∧ 1 ≤ d ≤ 31)
      then Some (y * 10000 + m * 100 + d) else None
  | _ => None
  end.

(** ** First-seen order, as the specification words it

    "For each batch, for each record: if its generated identifier is
    present and not yet seen, mark it seen and append it to the output in
    first-seen order; otherwise discard it." *)

Fixpoint first_seen {A : Type} (key : A → option pykey) (seen : gset pykey)
    (l : list A) : list A :=
  match l with
  | [] => []
  | x :: l' =>
      match key x with
      | Some k =>
          if decide (k ∈ seen) then first_seen key seen l'
          else x :: first_seen key ({[k]} ∪ seen) l'
      | None => first_seen key seen l'
      end
  end.

(** The keys a list contributes to the seen set. *)
Definition keys_of {A : Type} (key : A → option pykey) (l : list A) : gset pykey :=
  list_to_set (omap key l).

(** The generated identifier of a raw record, [None] when the record has
    none ([r.get] gives [None] for a missing member). *)
Definition field (r : json) (k : string) : json :=
  match r with
  | JObj members => default JNull (assoc k members)
  | _ => JNull
  end.

Definition gen_id (r : json) : json := field r "generated_internal_id".

(** The key under which the aggregator files a record: records without a
    truthy identifier have none. *)
Definition agg_key (r : json) : option pykey :=
  if truthy (gen_id r) then py_key (gen_id r) else None.

(** Records the aggregation loop can process without raising: dicts whose
    identifier, when truthy, is hashable. *)
Definition usable (r : json) : Prop :=
  match r with
  | JObj _ => truthy (gen_id r) = true → is_Some (py_key (gen_id r))
  | _ => False
  end.

Definition is_dict (r : json) : Prop :=
  match r with JObj _ => True | _ => False end.

(** Records the normaliser can process without raising: dicts with a
    hashable identifier. *)
Definition normalisable (r : json) : Prop :=
  match r with
  | JObj _ => is_Some (py_key (gen_id r))
  | _ => False
  end.

(** Records that all carry a usable identifier, no two the same. *)
Definition distinct_present_ids (results : list json) : Prop :=
  Forall (λ r, is_Some (agg_key r)) results ∧ NoDup (agg_key <$> results).


(** What [make_record] builds from a dict. *)
Definition raw_record (r : json) : Row json :=
  {| INTERNAL_ID := field r "internal_id";
     AWARD_ID := field r "Award ID";
     GENERATED_INTERNAL_ID := field r "generated_internal_id";
     RECIPIENT_NAME := field r "Recipient Name";
     AWARD_AMOUNT := py_or (field r "Award Amount") (JNum 0);
     DESCRIPTION := field r "Description";
     AWARDING_AGENCY := field r "Awarding Agency";
     AWARDING_SUB_AGENCY := field r "Awarding Sub Agency";
     START_DATE := field r "Start Date";
     END_DATE := field r "End Date";
     NAICS_CODE := field r "NAICS Code";
     NAICS_DESCRIPTION := field r "NAICS Description";
     PSC_CODE := field r "Product or Service Code" |}.

(** A record whose amount is absent, null or zero-equivalent. *)
Inductive amount_missing (r : json) : Prop :=
| amount_absent members :
    r = JObj members → assoc "Award Amount" members = None → amount_missing r
| amount_null :
    field r "Award Amount" = JNull → amount_missing r
| amount_falsy :
    truthy (field r "Award Amount") = false → amount_missing r.

(** The key of a normalised row. *)
Definition row_key {D : Type} (row : Row D) : option pykey :=
  py_key (GENERATED_INTERNAL_ID row).

(** The items of a batch, and the batches the aggregation loop can
    process without raising. *)
Definition batch_items (b : json) : list json :=
  match py_iter b with
  | Ok items => items
  | Raise _ => []
  end.

Definition usable_batch (b : json) : Prop :=
  match py_iter b with
  | Ok items => Forall usable items
  | Raise _ => False
  end.

(** All records of all batches, in arrival order. *)
Definition arrivals (batches : list json) : list json :=
  concat (batch_items <$> batches).

(** ** Sample data: the scenarios of the specification *)

Definition award (gid : string) (amount start : json) : json :=
  JObj [ ("internal_id", JNum 7);
         ("Award ID", JStr ("AWD-" +:+ gid));
         ("Recipient Name", JStr "ACME DATA LLC");
         ("Award Amount", amount);
         ("Start Date", start);
         ("End Date", JStr "2024-12-31");
         ("generated_internal_id", JStr gid) ].

Definition award_A : json := award "A" (JNum 900) (JStr "2021-03-01").
Definition award_B : json := award "B" (JNum 800) (JStr "2021-04-01").
Definition award_C : json := award "C" (JNum 700) (JStr "2021-05-01").
Definition award_D : json := award "D" (JStr "") (JStr "soon").

(** The batches of the two keywords that find something. *)
Definition sample_batches : list json :=
  [JArr [award_A; award_B; award_C]; JArr [award_B; award_D]].

Definition sample_awards : list json := [award_A; award_B; award_C; award_D].

Definition http_ok (body : json) : outcome Response :=
  Ok {| status_code := 200; reason := "OK"; body_json := Ok body |}.

(** "data analytics" finds A, B, C; "big data" finds B, D; the other
    keywords fail in the four different ways or find nothing. *)
Definition sample_api (p : Params) : outcome Response :=
  if decide (keywords p = ["data analytics"]) then
    http_ok (JObj [("results", JArr [award_A; award_B; award_C])])
  else if decide (keywords p = ["big data"]) then
    http_ok (JObj [("results", JArr [award_B; award_D])])
  else if decide (keywords p = ["machine learning"]) then
    Raise (Exn "ConnectionError" "connection refused")
  else if decide (keywords p = ["data lake"]) then
    Raise (Exn "Timeout" "read timed out")
  else if decide (keywords p = ["database"]) then
    Ok {| status_code := 503; reason := "Service Unavailable"; body_json := Ok JNull |}
  else if decide (keywords p = ["ETL"]) then
    Ok {| status_code := 200; reason := "OK";
          body_json := Raise (Exn "JSONDecodeError" "Expecting value") |}
  else if decide (keywords p = ["Palantir"]) then
    http_ok (JArr [])
  else http_ok (JObj []).

Definition world_with (api : Params → outcome Response)
    (conn : outcome unit) (load : DataFrame → outcome Z) : World :=
  {| today := "2026-01-15";
     requests_post := api;
     snowflake_connect := conn;
     write_pandas := load;
     conn_close := Ok () |}.

Definition load_ok (df : DataFrame) : outcome Z := Ok (Z.of_nat (length df)).
Definition load_fails (df : DataFrame) : outcome Z :=
  Raise (Exn "ProgrammingError" "table RAW_CONTRACTS does not exist").

Definition world_ok : World := world_with sample_api (Ok ()) load_ok.
Definition world_load_fails : World := world_with sample_api (Ok ()) load_fails.
Definition world_no_warehouse : World :=
  world_with sample_api (Raise (Exn "DatabaseError" "connection profile not found")) load_ok.
Definition world_offline : World :=
  world_with (λ _, Raise (Exn "ConnectionError" "network unreachable")) (Ok ()) load_ok.

Section Pipeline.

(** [pd.to_datetime(column, errors="coerce")], cell by cell: the first
    argument is the whole column (pandas may infer the format from it), the
    result is [None] (NaT) for a cell that does not parse. *)
Variable parse_datetime : list json → json → option Timestamp.

(** Lines 94-98: building the frame and converting the two date columns.
    A frame built from no records has no columns, so selecting one raises
    [KeyError]. *)
Definition convert_dates (records : list (Row json)) : outcome DataFrame :=
  match records with
  | [] => Raise (Exn "KeyError" "'START_DATE'")
  | _ =>
      let starts := START_DATE <$> records in
      let ends := END_DATE <$> records in
      Ok ((λ r, with_dates r (parse_datetime starts (START_DATE r))
                             (parse_datetime ends (END_DATE r))) <$> records)
  end.

Definition transform_contracts (results : list json) : outcome DataFrame :=
  records ← mapM make_record results;
  df ← convert_dates records;
  drop_duplicates df.

(** The rows of the frame before duplicates are dropped, one per input
    record and in input order. *)
Definition date_rows (records : list (Row json)) : DataFrame :=
  (λ r, with_dates r (parse_datetime (START_DATE <$> records) (START_DATE r))
                     (parse_datetime (END_DATE <$> records) (END_DATE r)))
    <$> records.

Definition normalized_rows (results : list json) : DataFrame :=
  date_rows (raw_record <$> results).


(** ** Delivery *)

Definition connect_snowflake (w : World) : Run unit :=
  emit (Connect "martydemo" "EPLAYGROUND" "GOVCONTRACTS" "EPLAYGROUND_WH");;
  lift (snowflake_connect w).

Definition load_to_snowflake (w : World) (df : DataFrame) : Run Z :=
  emit (WritePandas df "RAW_CONTRACTS");;
  lift (write_pandas w df).

(** Lines 169-175. *)
Definition deliver_try (w : World) (df : DataFrame) : Run unit :=
  print (nl +:+ "Connecting to Snowflake...");;
  connect_snowflake w;;
  print "Loading data to RAW_CONTRACTS...";;
  nrows ← load_to_snowflake w df;
  print ("Successfully loaded " +:+ pretty nrows +:+ " rows!");;
  emit Close;;
  lift (conn_close w).

(** The last message of the [except] block; it is not an f-string in the
    source, so the braces are printed as they are. *)
Definition manual_upload_hint : string :=
  "You can manually upload using: PUT file://{csv_path} @CONTRACT_DATA_STAGE".

(** Lines 176-179. *)
Definition deliver_except (e : exn) : Run unit :=
  print ("Error loading to Snowflake: " +:+ exn_msg e);;
  print ("Data saved to CSV: " +:+ csv_path);;
  print manual_upload_hint.

(** Lines 169-179. *)
Definition deliver (w : World) (df : DataFrame) : Run unit :=
  try_except (deliver_try w df) deliver_except.

(** The ways delivery can fail: the connection is refused, the bulk load
    raises, or closing the connection raises. *)
Inductive delivery_failure (w : World) (df : DataFrame) : exn → Prop :=
| connect_fails e :
    snowflake_connect w = Raise e →
    delivery_failure w df e
| load_raises e :
    snowflake_connect w = Ok () →
    write_pandas w df = Raise e →
    delivery_failure w df e
| close_raises nrows e :
    snowflake_connect w = Ok () →
    write_pandas w df = Ok nrows →
    conn_close w = Raise e →
    delivery_failure w df e.

(** ** [main] *)

(** One iteration of the keyword loop, lines 138-150. *)
Definition keyword_step (w : World) (st : list json * gset pykey) (keyword : string)
  : Run (list json * gset pykey) :=
  print (nl +:+ "Fetching contracts for: '" +:+ keyword +:+ "'...");;
  results ← fetch_contracts w keyword 200;
  '(all_contracts, seen_ids, new) ← lift (extend_with st results);
  print ("  Found " +:+ pretty (py_len results) +:+ " contracts, "
           +:+ pretty new +:+ " new");;
  mret (all_contracts, seen_ids).

(** What the fetcher hands to the loop for a keyword. *)
Definition fetched (w : World) (keyword : string) : json :=
  match (fetch_contracts w keyword 200).2 with
  | Ok results => results
  | Raise _ => JArr []
  end.

(** Total number of records fetched over a list of keywords: the sum of
    the [len(results)] the loop prints. *)
Definition total_fetched (w : World) (kws : list string) : nat :=
  sum_list (py_len ∘ fetched w <$> kws).

(** Events that touch the warehouse. *)
Definition is_warehouse (ev : event) : bool :=
  match ev with
  | Connect _ _ _ _ | WritePandas _ _ | Close => true
  | _ => false
  end.

(** Traces made of [print]s and HTTP requests only. *)
Definition only_fetches (t : list event) : Prop :=
  Forall (λ ev, match ev with Print _ | Post _ _ _ => True | _ => False end) t.

(** The lines printed before the keyword loop and after it. *)
Definition banner : list event :=
  [Print (str_mul "=" 60); Print "GovContracts Data Loader"; Print (str_mul "=" 60)].

Definition summary (all_contracts : list json) : list event :=
  [Print (nl +:+ str_mul "=" 60);
   Print ("Total unique contracts: " +:+ pretty (length all_contracts))].

Definition warehouse_calls (t : list event) : list event :=
  filter (λ ev, is_warehouse ev = true) t.

(** The tables a run hands to the outside: CSV writes and bulk loads. *)
Definition tables_of (t : list event) : list DataFrame :=
  omap (λ ev, match ev with
              | ToCsv _ df | WritePandas df _ => Some df
              | _ => None
              end) t.

Definition keyword_loop (w : World) (kws : list string)
  : Run (list json * gset pykey) :=
  foldR (keyword_step w) ([], ∅) kws.

(** Lines 152-179. *)
Definition finish (w : World) (all_contracts : list json) : Run unit :=
  print (nl +:+ str_mul "=" 60);;
  print ("Total unique contracts: " +:+ pretty (length all_contracts));;
  match all_contracts with
  | [] => print "No contracts found!"
  | _ =>
      df ← lift (transform_contracts all_contracts);
      print ("DataFrame shape: (" +:+ pretty (length df) +:+ ", 13)");;
      emit (ToCsv csv_path df);;
      print ("Saved to: " +:+ csv_path);;
      deliver w df
  end.

Definition run (w : World) (kws : list string) : Run unit :=
  print (str_mul "=" 60);;
  print "GovContracts Data Loader";;
  print (str_mul "=" 60);;
  '(all_contracts, _) ← keyword_loop w kws;
  finish w all_contracts.

Definition main (w : World) : Run unit := run w SEARCH_KEYWORDS.

End Pipeline.

(** ** Observations on traces and errors *)

(** The request bodies a trace sends to the search API, in order. *)
Definition requests_of (t : list event) : list Params :=
  omap (λ ev, match ev with Post _ params _ => Some params | _ => None end) t.





(** A search API that answers the first keyword with an object whose
    [results] member is null. *)
Definition null_results_api (p : Params) : outcome Response :=
  if decide (keywords p = ["data analytics"]) then
    http_ok (JObj [("results", JNull)])
  else sample_api p.

Definition world_null_results : World := world_with null_results_api (Ok ()) load_ok.


(** * Properties *)

(** ** Outcomes and runs *)

Lemma bind_Ok {A B : Type} (m : outcome A) (f : A → outcome B) (b : B) :
  m ≫= f = Ok b ↔ ∃ a, m = Ok a ∧ f a = Ok b.
Proof.
  destruct m as [a|e]; simpl; split.
  - eauto.
  - by intros (a' & [= <-] & ?).
  - done.
  - by intros (a' & ? & _).
Qed.

Lemma fmap_Ok {A B : Type} (m : outcome A) (f : A → B) (b : B) :
  f <$> m = Ok b ↔ ∃ a, m = Ok a ∧ b = f a.
Proof.
  destruct m as [a|e]; simpl; split.
  - intros [= <-]. eauto.
  - by intros (a' & [= <-] & ->).
  - done.
  - by intros (a' & ? & _).
Qed.

(** ** First-seen order *)

Section first_seen.
Context {A : Type} (key : A → option pykey).
Implicit Types (seen : gset pykey) (l : list A).

Lemma keys_of_nil : keys_of key [] = ∅.
Proof. done. Qed.

Lemma keys_of_cons_Some x k l :
  key x = Some k → keys_of key (x :: l) = {[k]} ∪ keys_of key l.
Proof. unfold keys_of. simpl. by intros ->. Qed.

Lemma keys_of_cons_None x l :
  key x = None → keys_of key (x :: l) = keys_of key l.
Proof. unfold keys_of. simpl. by intros ->. Qed.

Lemma keys_of_app l1 l2 :
  keys_of key (l1 ++ l2) = keys_of key l1 ∪ keys_of key l2.
Proof. unfold keys_of. rewrite omap_app. apply list_to_set_app_L. Qed.

Lemma elem_of_keys_of k l :
  k ∈ keys_of key l ↔ ∃ x, x ∈ l ∧ key x = Some k.
Proof. unfold keys_of. rewrite elem_of_list_to_set, list_elem_of_omap. done. Qed.

Lemma first_seen_sublist seen l : first_seen key seen l `sublist_of` l.
Proof.
  revert seen. induction l as [|x l IH]; intros seen; simpl; [done|].
  destruct (key x) as [k|]; [case_decide|].
  - by apply sublist_cons.
  - by apply sublist_skip.
  - by apply sublist_cons.
Qed.

Lemma first_seen_length seen l : (length (first_seen key seen l) ≤ length l)%nat.
Proof. apply sublist_length, first_seen_sublist. Qed.

Lemma first_seen_fresh seen l x :
  x ∈ first_seen key seen l → ∃ k, key x = Some k ∧ k ∉ seen.
Proof.
  revert seen. induction l as [|y l IH]; intros seen; simpl.
  - by intros ?%elem_of_nil.
  - destruct (key y) as [k|] eqn:Hk; [case_decide|]; [by auto| |by auto].
    intros [->|Hin]%elem_of_cons; [by eauto|].
    destruct (IH _ Hin) as (k' & ? & ?). exists k'. split; [done|set_solver].
Qed.

Lemma first_seen_keys seen l :
  keys_of key (first_seen key seen l) = keys_of key l ∖ seen.
Proof.
  revert seen. induction l as [|x l IH]; intros seen; simpl.
  - set_solver.
  - destruct (key x) as [k|] eqn:Hk; [case_decide|].
    + rewrite IH, (keys_of_cons_Some x k) by done. set_solver.
    + rewrite !(keys_of_cons_Some x k), IH by done.
      apply set_eq; intros y. destruct (decide (y = k)); set_solver.
    + rewrite IH, keys_of_cons_None by done. done.
Qed.

Lemma first_seen_NoDup seen l : NoDup (key <$> first_seen key seen l).
Proof.
  revert seen. induction l as [|x l IH]; intros seen; simpl; [constructor|].
  destruct (key x) as [k|] eqn:Hk; [case_decide|]; [done| |done].
  rewrite fmap_cons. constructor; [|done].
  rewrite Hk. intros (y & Hy & Hin)%list_elem_of_fmap.
  apply first_seen_fresh in Hin as (k' & Hk' & Hfresh).
  rewrite Hk' in Hy. set_solver.
Qed.

Lemma first_seen_app seen l1 l2 :
  first_seen key seen (l1 ++ l2)
  = first_seen key seen l1 ++ first_seen key (seen ∪ keys_of key l1) l2.
Proof.
  revert seen. induction l1 as [|x l1 IH]; intros seen; simpl.
  - rewrite keys_of_nil. by rewrite (right_id_L ∅ (∪)).
  - destruct (key x) as [k|] eqn:Hk; [case_decide|].
    + rewrite IH, (keys_of_cons_Some x k) by done.
      do 2 f_equal. set_solver.
    + rewrite IH, (keys_of_cons_Some x k) by done. simpl.
      do 3 f_equal. set_solver.
    + by rewrite IH, keys_of_cons_None.
Qed.

(** A record whose key has not occurred before is kept, at its place. *)
Lemma first_seen_keeps seen l1 x l2 k :
  key x = Some k → k ∉ seen → k ∉ keys_of key l1 →
  first_seen key seen (l1 ++ x :: l2)
  = first_seen key seen l1
      ++ x :: first_seen key ({[k]} ∪ (seen ∪ keys_of key l1)) l2.
Proof.
  intros Hk Hs Hl. rewrite first_seen_app. simpl. rewrite Hk.
  rewrite decide_False by set_solver. done.
Qed.

(** A record whose key occurred before, or that has no key, is dropped. *)
Lemma first_seen_drops seen l1 x l2 :
  (∀ k, key x = Some k → k ∈ seen ∨ k ∈ keys_of key l1) →
  first_seen key seen (l1 ++ x :: l2) = first_seen key seen (l1 ++ l2).
Proof.
  intros Hk. rewrite !first_seen_app. simpl.
  destruct (key x) as [k|]; [|done].
  rewrite decide_True; [done|]. destruct (Hk k eq_refl); set_solver.
Qed.

(** Nothing is removed from a list whose keys are present, fresh and
    pairwise distinct. *)
Lemma first_seen_id seen l :
  Forall (λ x, is_Some (key x)) l → NoDup (key <$> l) →
  keys_of key l ## seen →
  first_seen key seen l = l.
Proof.
  revert seen. induction l as [|x l IH]; intros seen Hall Hnd Hdisj; simpl; [done|].
  apply Forall_cons in Hall as [[k Hk] Hall].
  rewrite fmap_cons in Hnd. apply NoDup_cons in Hnd as [Hx Hnd].
  rewrite Hk. rewrite (keys_of_cons_Some x k) in Hdisj by done.
  rewrite decide_False by set_solver.
  f_equal. apply IH; [done..|].
  assert (k ∉ keys_of key l); [|set_solver].
  intros (y & Hy & Hky)%elem_of_keys_of. apply Hx.
  rewrite Hk, <-Hky. by apply list_elem_of_fmap_2.
Qed.

End first_seen.

(** ** Loops that keep the first record of every key *)

Section keep_fold.
Context {A : Type}.
Context (step : gset pykey * list A → A → outcome (gset pykey * list A)).
Context (key : A → option pykey) (ok : A → Prop).
Hypothesis step_ok : ∀ seen acc x, ok x →
  step (seen, acc) x = Ok (seen ∪ keys_of key [x], acc ++ first_seen key seen [x]).
Hypothesis step_inv : ∀ st x st', step st x = Ok st' → ok x.

Lemma keep_fold_ok seen acc l :
  Forall ok l →
  foldM step (seen, acc) l
  = Ok (seen ∪ keys_of key l, acc ++ first_seen key seen l).
Proof using step_ok.
  intros Hall. revert seen acc.
  induction Hall as [|x l Hx Hall IH]; intros seen acc.
  - simpl. rewrite keys_of_nil. by rewrite (right_id_L ∅ (∪)), (right_id_L [] (++)).
  - rewrite (keys_of_app key [x] l : keys_of key (x :: l) = _).
    rewrite (first_seen_app key seen [x] l : first_seen key seen (x :: l) = _).
    cbn [foldM]. rewrite step_ok by done. cbn [mbind outcome_bind].
    rewrite IH. by rewrite (assoc_L (∪)), (assoc_L (++)).
Qed.

Lemma keep_fold_inv st l st' : foldM step st l = Ok st' → Forall ok l.
Proof using step_inv.
  revert st. induction l as [|x l IH]; intros st; simpl; [by constructor|].
  intros (st1 & Hstep & Hrest)%bind_Ok. constructor; eauto.
Qed.

End keep_fold.

(** ** The aggregation loop *)

Lemma py_get_dict members k dflt :
  py_get (JObj members) k dflt = Ok (default dflt (assoc k members)).
Proof. done. Qed.

Lemma dedup_step_ok seen acc r :
  usable r →
  dedup_step (seen, acc) r
  = Ok (seen ∪ keys_of agg_key [r], acc ++ first_seen agg_key seen [r]).
Proof.
  destruct r as [| | | | |members]; try done. intros Hu. simpl in Hu.
  unfold dedup_step. rewrite py_get_dict. simpl.
  unfold keys_of, agg_key. simpl.
  destruct (truthy _) eqn:Ht; simpl.
  - destruct (Hu eq_refl) as [k Hk]. unfold py_hash. rewrite Hk. simpl.
    case_decide; simpl.
    + rewrite (right_id_L [] (++)). f_equal. f_equal. set_solver.
    + f_equal. f_equal. set_solver.
  - rewrite (right_id_L [] (++)). f_equal. f_equal. set_solver.
Qed.

Lemma dedup_step_inv st r st' : dedup_step st r = Ok st' → usable r.
Proof.
  destruct st as [seen acc]. unfold dedup_step.
  destruct r as [| | | | |members]; try done.
  rewrite py_get_dict. simpl. intros Hstep Ht.
  change (default JNull (assoc "generated_internal_id" members))
    with (gen_id (JObj members)) in *.
  rewrite Ht in Hstep. unfold py_hash in Hstep.
  by destruct (py_key _).
Qed.

Lemma extend_with_Ok all seen results all' seen' n :
  extend_with (all, seen) results = Ok (all', seen', n) ↔
  usable_batch results ∧
  all' = all ++ first_seen agg_key seen (batch_items results) ∧
  seen' = seen ∪ keys_of agg_key (batch_items results) ∧
  n = length (first_seen agg_key seen (batch_items results)).
Proof.
  unfold extend_with, usable_batch, batch_items.
  destruct (py_iter results) as [items|e]; simpl; [|naive_solver].
  split.
  - destruct (foldM _ _ _) as [[s nr]|e] eqn:Hfold; simpl; [|done].
    intros [= <- <- <-].
    pose proof (keep_fold_inv _ _ dedup_step_inv _ _ _ Hfold) as Hall.
    rewrite (keep_fold_ok _ _ _ dedup_step_ok) in Hfold by done.
    by injection Hfold as <- <-.
  - intros (Hall & -> & -> & ->).
    by rewrite (keep_fold_ok _ _ _ dedup_step_ok).
Qed.

Lemma agg_fold_Ok all seen batches all' seen' :
  foldM (λ st b, fst <$> extend_with st b) (all, seen) batches = Ok (all', seen') ↔
  Forall usable_batch batches ∧
  all' = all ++ first_seen agg_key seen (arrivals batches) ∧
  seen' = seen ∪ keys_of agg_key (arrivals batches).
Proof.
  revert all seen. induction batches as [|b batches IH]; intros all seen.
  - simpl. unfold arrivals. simpl. rewrite keys_of_nil.
    rewrite (right_id_L [] (++)), (right_id_L ∅ (∪)). naive_solver.
  - cbn [foldM]. rewrite bind_Ok. unfold arrivals. rewrite fmap_cons. simpl.
    rewrite first_seen_app, keys_of_app, Forall_cons. split.
    + intros ([all1 seen1] & (((a & s) & n) & Hext & [= -> ->])%fmap_Ok & Hrest).
      apply extend_with_Ok in Hext as (Hb & -> & -> & _).
      apply IH in Hrest as (Hall & -> & ->).
      by rewrite (assoc_L (++)), (assoc_L (∪)).
    + intros ((Hb & Hall) & -> & ->).
      eexists (_, _). split.
      * apply fmap_Ok. eexists (_, _, _). split; [|done].
        by apply extend_with_Ok.
      * apply IH. by rewrite (assoc_L (++)), (assoc_L (∪)).
Qed.

Lemma aggregate_Ok batches out :
  aggregate batches = Ok out ↔
  Forall usable_batch batches ∧ out = first_seen agg_key ∅ (arrivals batches).
Proof.
  unfold aggregate. rewrite fmap_Ok. split.
  - intros ([all seen] & (? & ? & _)%agg_fold_Ok & ->). done.
  - intros (Hall & ->). eexists (_, _). split; [|done].
    apply agg_fold_Ok. done.
Qed.

(** ** Traces *)

Lemma run_bind_result {A B : Type} (m : Run A) (f : A → Run B) :
  (m ≫= f).2 = m.2 ≫= λ a, (f a).2.
Proof. destruct m as [t [a|e]]; simpl; [by destruct (f a)|done]. Qed.

Lemma run_bind_trace {A B : Type} (m : Run A) (f : A → Run B) :
  (m ≫= f).1 = m.1 ++ match m.2 with Ok a => (f a).1 | Raise _ => [] end.
Proof.
  destruct m as [t [a|e]]; simpl; [by destruct (f a)|].
  by rewrite (right_id_L [] (++)).
Qed.

Lemma try_except_result {A : Type} (body : Run A) (handler : exn → Run A) :
  (try_except body handler).2
  = match body.2 with Ok a => Ok a | Raise e => (handler e).2 end.
Proof. destruct body as [t [a|e]]; simpl; [done|by destruct (handler e)]. Qed.

Lemma try_except_trace {A : Type} (body : Run A) (handler : exn → Run A) :
  (try_except body handler).1
  = body.1 ++ match body.2 with Ok _ => [] | Raise e => (handler e).1 end.
Proof.
  destruct body as [t [a|e]]; simpl; [|by destruct (handler e)].
  by rewrite (right_id_L [] (++)).
Qed.

(** ** The fetcher *)

Lemma fetch_contracts_result w keyword :
  (fetch_contracts w keyword 200).2 = Ok (fetched w keyword).
Proof.
  unfold fetched. unfold fetch_contracts. rewrite try_except_result.
  by destruct (fetch_try _ _).2.
Qed.

(** X2. The success path: when the request returns a success status and
    the body decodes to an object, [fetch_contracts] prints nothing and
    returns the [results] member as it is, whatever its type, or an empty
    list when the object has none. *)
Lemma fetch_contracts_success w keyword lim response members :
  requests_post w (build_params w keyword lim) = Ok response →
  raise_for_status response = Ok () →
  body_json response = Ok (JObj members) →
  fetch_contracts w keyword lim
  = ([Post USA_SPENDING_API (build_params w keyword lim) 60],
     Ok (default (JArr []) (assoc "results" members))).
Proof.
  intros H1 H2 H3. unfold fetch_contracts, fetch_try.
  rewrite H1. cbn -[raise_for_status]. rewrite H2. cbn. by rewrite H3.
Qed.

Lemma keyword_step_result w st keyword :
  (keyword_step w st keyword).2 = fst <$> extend_with st (fetched w keyword).
Proof.
  unfold keyword_step. rewrite !run_bind_result. simpl.
  rewrite fetch_contracts_result. simpl.
  destruct (extend_with _ _) as [[[all seen] n]|e]; done.
Qed.

Lemma keyword_loop_result w kws :
  (keyword_loop w kws).2
  = foldM (λ st b, fst <$> extend_with st b) ([], ∅) (fetched w <$> kws).
Proof.
  unfold keyword_loop. generalize (([], ∅) : list json * gset pykey).
  induction kws as [|kw kws IH]; intros st; simpl; [done|].
  rewrite run_bind_result, keyword_step_result.
  destruct (extend_with _ _) as [[[all seen] n]|e]; simpl; [apply IH|done].
Qed.

Lemma keyword_step_only_fetches w st keyword :
  only_fetches (keyword_step w st keyword).1.
Proof.
  unfold keyword_step, fetch_contracts, fetch_try, fetch_except, only_fetches.
  destruct (requests_post w _) as [resp|e]; simpl;
    [|destruct (extend_with _ _) as [[[??]?]|]; simpl; by repeat constructor].
  destruct (raise_for_status resp); simpl;
    [|destruct (extend_with _ _) as [[[??]?]|]; simpl; by repeat constructor].
  destruct (body_json resp) as [data|]; simpl;
    [|destruct (extend_with _ _) as [[[??]?]|]; simpl; by repeat constructor].
  destruct (py_get data _ _); simpl;
    destruct (extend_with _ _) as [[[??]?]|]; simpl; by repeat constructor.
Qed.

Lemma keyword_loop_only_fetches w kws : only_fetches (keyword_loop w kws).1.
Proof.
  unfold keyword_loop. generalize (([], ∅) : list json * gset pykey).
  induction kws as [|kw kws IH]; intros st; simpl; [by constructor|].
  rewrite run_bind_trace. apply Forall_app. split.
  - apply keyword_step_only_fetches.
  - destruct (keyword_step w st kw).2; [apply IH|by constructor].
Qed.

Lemma tables_of_app t1 t2 : tables_of (t1 ++ t2) = tables_of t1 ++ tables_of t2.
Proof. apply omap_app. Qed.

Lemma only_fetches_tables t : only_fetches t → tables_of t = [].
Proof.
  induction 1 as [|ev t Hev _ IH]; [done|].
  change (ev :: t) with ([ev] ++ t). rewrite tables_of_app, IH.
  by destruct ev.
Qed.

(** ** Records, rows and delivery: what does not involve the date parser *)

Lemma mapM_Ok {A B : Type} (f : A → outcome B) (g : A → B) (P : A → Prop) l :
  (∀ x, P x → f x = Ok (g x)) → (∀ x y, f x = Ok y → P x) →
  ∀ ys, mapM f l = Ok ys ↔ Forall P l ∧ ys = g <$> l.
Proof.
  intros Hok Hinv. induction l as [|x l IH]; intros ys; simpl.
  - split; [intros [= <-]; by split|by intros [_ ->]].
  - rewrite bind_Ok, Forall_cons. split.
    + intros (y & Hy & (ys' & Hys & [= <-])%bind_Ok).
      apply IH in Hys as [? ->]. pose proof (Hinv _ _ Hy) as HP.
      rewrite (Hok _ HP) in Hy. injection Hy as <-. by eauto.
    + intros [[HP Hall] ->]. exists (g x). split; [by apply Hok|].
      apply bind_Ok. exists (g <$> l). split; [by apply IH|done].
Qed.

Lemma make_record_dict r : is_dict r → make_record r = Ok (raw_record r).
Proof. by destruct r. Qed.

Lemma make_record_inv r rec : make_record r = Ok rec → is_dict r.
Proof. by destruct r. Qed.

Lemma drop_step_ok seen acc row :
  is_Some (row_key row) →
  drop_step (seen, acc) row
  = Ok (seen ∪ keys_of row_key [row], acc ++ first_seen row_key seen [row]).
Proof.
  intros [k Hk]. unfold drop_step, keys_of, py_hash. simpl.
  unfold row_key in *. rewrite Hk. simpl. case_decide; simpl.
  - rewrite (right_id_L [] (++)). do 2 f_equal. set_solver.
  - do 2 f_equal. set_solver.
Qed.

Lemma drop_step_inv st row st' : drop_step st row = Ok st' → is_Some (row_key row).
Proof.
  destruct st as [seen acc]. unfold drop_step, py_hash, row_key.
  by destruct (py_key _).
Qed.

Lemma drop_duplicates_Ok df out :
  drop_duplicates df = Ok out ↔
  Forall (λ row, is_Some (row_key row)) df ∧ out = first_seen row_key ∅ df.
Proof.
  unfold drop_duplicates. rewrite fmap_Ok. split.
  - intros ([seen kept] & Hfold & ->).
    pose proof (keep_fold_inv _ _ drop_step_inv _ _ _ Hfold) as Hall.
    rewrite (keep_fold_ok _ _ _ drop_step_ok) in Hfold by done.
    by injection Hfold as <- <-.
  - intros [Hall ->]. eexists (_, _).
    by rewrite (keep_fold_ok _ _ _ drop_step_ok).
Qed.


Lemma normalisable_iff r : normalisable r ↔ is_dict r ∧ is_Some (py_key (gen_id r)).
Proof. destruct r; simpl; naive_solver. Qed.

Lemma deliver_result w df : (deliver w df).2 = Ok ().
Proof.
  unfold deliver, deliver_try, connect_snowflake, load_to_snowflake.
  destruct (snowflake_connect w) as [[]|]; simpl; [|done].
  destruct (write_pandas w df); simpl; [|done].
  by destruct (conn_close w) as [[]|].
Qed.

Lemma deliver_trace w df :
  (deliver w df).1
  = (deliver_try w df).1
    ++ match (deliver_try w df).2 with
       | Ok _ => []
       | Raise e => (deliver_except e).1
       end.
Proof. apply try_except_trace. Qed.

(** The warehouse is contacted first thing in the delivery stage. *)
Lemma deliver_try_connects w df :
  ∃ rest, (deliver_try w df).1
          = Print (nl +:+ "Connecting to Snowflake...")
            :: Connect "martydemo" "EPLAYGROUND" "GOVCONTRACTS" "EPLAYGROUND_WH"
            :: rest.
Proof.
  unfold deliver_try, connect_snowflake, load_to_snowflake.
  destruct (snowflake_connect w) as [[]|]; simpl; [|by eauto].
  destruct (write_pandas w df); simpl; [|by eauto].
  destruct (conn_close w) as [[]|]; simpl; by eauto.
Qed.

(** What the aggregation loop leaves in [all_contracts]. *)
Lemma keyword_loop_Ok w kws all seen :
  (keyword_loop w kws).2 = Ok (all, seen) ↔
  Forall usable_batch (fetched w <$> kws) ∧
  all = first_seen agg_key ∅ (arrivals (fetched w <$> kws)) ∧
  seen = keys_of agg_key (arrivals (fetched w <$> kws)).
Proof.
  rewrite keyword_loop_result, agg_fold_Ok. simpl.
  by rewrite (left_id_L ∅ (∪)).
Qed.


Lemma agg_key_Some r k :
  agg_key r = Some k ↔ is_dict r ∧ truthy (gen_id r) = true ∧ py_key (gen_id r) = Some k.
Proof.
  unfold agg_key. destruct (truthy (gen_id r)) eqn:Ht; [|naive_solver].
  destruct r; try done. naive_solver.
Qed.

Lemma first_seen_distinct_present seen l :
  distinct_present_ids (first_seen agg_key seen l).
Proof.
  split; [|apply first_seen_NoDup].
  apply Forall_forall. intros r (k & Hk & _)%first_seen_fresh. by rewrite Hk.
Qed.

Lemma aggregate_distinct_present batches out :
  aggregate batches = Ok out → distinct_present_ids out.
Proof. intros [_ ->]%aggregate_Ok. apply first_seen_distinct_present. Qed.



Lemma deliver_tables w df d : d ∈ tables_of (deliver w df).1 → d = df.
Proof.
  unfold deliver, deliver_try, connect_snowflake, load_to_snowflake, deliver_except.
  destruct (snowflake_connect w) as [[]|]; simpl; [|by intros ?%elem_of_nil].
  destruct (write_pandas w df); simpl; [|by intros ->%list_elem_of_singleton].
  destruct (conn_close w) as [[]|]; simpl; by intros ->%list_elem_of_singleton.
Qed.

Lemma arrivals_length batches :
  length (arrivals batches) = sum_list (py_len <$> batches).
Proof.
  unfold arrivals. induction batches as [|b batches IH]; csimpl; [done|].
  rewrite length_app, IH. unfold py_len, batch_items.
  by destruct (py_iter b).
Qed.

(** The output of first-seen filtering over several batches splits into
    one part per batch, each in the order of its batch. *)
Lemma first_seen_parts {A : Type} (key : A → option pykey) seen (ls : list (list A)) :
  ∃ parts, first_seen key seen (concat ls) = concat parts ∧
           Forall2 sublist parts ls.
Proof.
  revert seen. induction ls as [|l ls IH]; intros seen; simpl.
  - exists []. split; [done|constructor].
  - rewrite first_seen_app.
    destruct (IH (seen ∪ keys_of key l)) as (parts & -> & Hparts).
    exists (first_seen key seen l :: parts). split; [done|].
    constructor; [apply first_seen_sublist|done].
Qed.


Lemma warehouse_calls_app t1 t2 :
  warehouse_calls (t1 ++ t2) = warehouse_calls t1 ++ warehouse_calls t2.
Proof. apply filter_app. Qed.

Lemma only_fetches_no_warehouse t : only_fetches t → warehouse_calls t = [].
Proof.
  induction 1 as [|ev t Hev _ IH]; [done|].
  unfold warehouse_calls in *. rewrite filter_cons, IH. by destruct ev.
Qed.

(** X9. The warehouse calls of the delivery stage on every path: one
    connection attempt comes first; the bulk load is attempted only on an
    open connection, with the table it was given and the target
    RAW_CONTRACTS; [close] is called exactly when the bulk load returned. *)
Lemma deliver_warehouse_calls w df :
  warehouse_calls (deliver w df).1
  = Connect "martydemo" "EPLAYGROUND" "GOVCONTRACTS" "EPLAYGROUND_WH"
    :: match snowflake_connect w with
       | Raise _ => []
       | Ok _ =>
           WritePandas df "RAW_CONTRACTS"
           :: match write_pandas w df with
              | Raise _ => []
              | Ok _ => [Close]
              end
       end.
Proof.
  unfold deliver, deliver_try, connect_snowflake, load_to_snowflake, deliver_except.
  destruct (snowflake_connect w) as [[]|]; [|done].
  cbn -[String.append]. destruct (write_pandas w df); [|done].
  cbn -[String.append pretty]. by destruct (conn_close w) as [[]|].
Qed.

(** When every fetch fails the aggregation loop ends with nothing. *)
Lemma all_fetches_fail w kws :
  (∀ kw, kw ∈ kws → ∃ e, fetch_failure w (build_params w kw 200) e) →
  (keyword_loop w kws).2 = Ok ([], ∅).
Proof.
  intros Hfail. apply keyword_loop_Ok.
  assert (Forall (λ b, b = JArr []) (fetched w <$> kws)) as Hempty.
  { apply Forall_fmap, Forall_forall. intros kw [e He]%Hfail. simpl.
    unfold fetched, fetch_contracts. rewrite try_except_result.
    assert ((fetch_try w (build_params w kw 200)).2 = Raise e) as ->; [|done].
    unfold fetch_try.
    destruct He as [e H1|resp e H1 H2|resp e H1 H2 H3|resp data e H1 H2 H3 H4].
    - by rewrite H1.
    - rewrite H1. cbn -[raise_for_status]. by rewrite H2.
    - rewrite H1. cbn -[raise_for_status]. rewrite H2. cbn. by rewrite H3.
    - rewrite H1. cbn -[raise_for_status]. rewrite H2. cbn -[py_get]. rewrite H3.
      cbn -[py_get]. by rewrite H4. }
  assert (arrivals (fetched w <$> kws) = []) as ->.
  { unfold arrivals. induction Hempty as [|b bs -> _ IH]; [done|]. csimpl. by rewrite IH. }
  split; [|done].
  eapply Forall_impl; [done|]. intros b ->. by constructor.
Qed.

(** ** The normaliser *)

Section normaliser.

(** The date parser of pandas, see [convert_dates]. *)
Context (parse : list json → json → option Timestamp).

Lemma convert_dates_Ok records df :
  convert_dates parse records = Ok df ↔ records ≠ [] ∧ df = date_rows parse records.
Proof. destruct records; simpl; naive_solver. Qed.

Lemma row_key_normalized results :
  row_key <$> normalized_rows parse results = py_key ∘ gen_id <$> results.
Proof.
  unfold normalized_rows, date_rows. rewrite <-!list_fmap_compose.
  by apply list_fmap_ext.
Qed.

Lemma normalized_rows_length results :
  length (normalized_rows parse results) = length results.
Proof. unfold normalized_rows, date_rows. by rewrite !length_fmap. Qed.

Lemma hashable_rows results :
  Forall (λ row, is_Some (row_key row)) (normalized_rows parse results) ↔
  Forall (λ r, is_Some (py_key (gen_id r))) results.
Proof.
  change (λ row : Row (option Timestamp), is_Some (row_key row))
    with (is_Some ∘ @row_key (option Timestamp)).
  rewrite <-Forall_fmap, row_key_normalized, Forall_fmap. done.
Qed.

Lemma transform_contracts_Ok results df :
  transform_contracts parse results = Ok df ↔
  results ≠ [] ∧ Forall normalisable results ∧
  df = first_seen row_key ∅ (normalized_rows parse results).
Proof.
  unfold transform_contracts. rewrite bind_Ok.
  setoid_rewrite (mapM_Ok make_record raw_record is_dict results
                    make_record_dict make_record_inv).
  setoid_rewrite bind_Ok. setoid_rewrite convert_dates_Ok.
  setoid_rewrite drop_duplicates_Ok.
  assert (Forall normalisable results ↔
          Forall is_dict results ∧ Forall (λ r, is_Some (py_key (gen_id r))) results)
    as ->.
  { rewrite <-Forall_and. apply Forall_proper; [|done]. intros r. apply normalisable_iff. }
  rewrite <-hashable_rows. unfold normalized_rows.
  split.
  - intros (recs & [Hd ->] & df' & [Hne ->] & Hk & ->).
    split; [by intros ->|]. done.
  - intros (Hne & [Hd Hk] & ->). exists (raw_record <$> results).
    split; [done|]. eexists. split; [split; [|done]|done].
    by destruct results.
Qed.

(** ** Delivery and the end of the run *)

Lemma run_unfold w kws :
  run parse w kws
  = match (keyword_loop w kws).2 with
    | Ok (all_contracts, _) =>
        (banner ++ (keyword_loop w kws).1 ++ (finish parse w all_contracts).1,
         (finish parse w all_contracts).2)
    | Raise e => (banner ++ (keyword_loop w kws).1, Raise e)
    end.
Proof.
  unfold run. destruct (keyword_loop w kws) as [t [[all seen]|e]]; simpl; [|done].
  by destruct (finish parse w all).
Qed.

Lemma finish_table w all df :
  transform_contracts parse all = Ok df →
  finish parse w all
  = (summary all
       ++ [Print ("DataFrame shape: (" +:+ pretty (length df) +:+ ", 13)");
           ToCsv csv_path df;
           Print ("Saved to: " +:+ csv_path)]
       ++ (deliver w df).1,
     Ok ()).
Proof.
  intros Hdf. pose proof Hdf as (Hne & _)%transform_contracts_Ok.
  unfold finish. destruct all as [|r all]; [done|]. rewrite Hdf.
  pose proof (deliver_result w df) as Hres.
  cbn -[str_mul pretty deliver csv_path String.append].
  destruct (deliver w df) as [t res]. simpl in Hres. by subst res.
Qed.

Lemma finish_raise w all e :
  all ≠ [] → transform_contracts parse all = Raise e →
  finish parse w all = (summary all, Raise e).
Proof. intros Hne Hdf. unfold finish. destruct all; [done|]. by rewrite Hdf. Qed.


(** Every table a run writes or loads is the normalised form of what the
    aggregation loop collected. *)
Lemma run_tables w kws df :
  df ∈ tables_of (run parse w kws).1 →
  ∃ all seen, (keyword_loop w kws).2 = Ok (all, seen) ∧
              transform_contracts parse all = Ok df.
Proof.
  rewrite run_unfold.
  pose proof (only_fetches_tables _ (keyword_loop_only_fetches w kws)) as Hloop.
  destruct (keyword_loop w kws).2 as [[all seen]|e] eqn:Hres.
  - cbn [fst]. rewrite !tables_of_app, Hloop.
    change (tables_of banner) with (@nil DataFrame). cbn [app].
    destruct (transform_contracts parse all) as [df'|e] eqn:Hdf.
    + rewrite (finish_table _ _ _ Hdf). cbn [fst]. rewrite !tables_of_app.
      change (tables_of (summary all)) with (@nil DataFrame).
      change (tables_of [Print _; ToCsv csv_path df'; Print _]) with [df'].
      cbn [app].
      intros [->|Hin]%elem_of_cons; [by eauto|].
      apply deliver_tables in Hin as ->. by eauto.
    + destruct all as [|r all]; [by intros ?%elem_of_nil|].
      rewrite (finish_raise _ _ e) by done. by intros ?%elem_of_nil.
  - cbn [fst]. rewrite tables_of_app, Hloop. by intros ?%elem_of_nil.
Qed.

(** * Main results: normalised tables and whole runs *)

(** C1. No table a run writes or loads holds two rows with the same
    GENERATED_INTERNAL_ID, however many keyword queries returned the award.
    The aggregation pass delivers records with pairwise distinct
    identifiers, the normaliser delivers rows with pairwise distinct
    identifiers whatever it is given, and every table in the trace of a run
    is the normalised form of an aggregated list. Identifiers are compared
    as Python does (by hash key), which is at least as strict as comparing
    the values. *)
Theorem generated_ids_unique :
  (∀ batches out,
     aggregate batches = Ok out →
     Forall (λ r, is_Some (agg_key r)) out ∧ NoDup (agg_key <$> out)) ∧
  (∀ results df,
     transform_contracts parse results = Ok df → NoDup (row_key <$> df)) ∧
  (∀ w kws df,
     df ∈ tables_of (run parse w kws).1 →
     NoDup (row_key <$> df) ∧ NoDup (GENERATED_INTERNAL_ID <$> df)).
Proof.
  split; [|split].
  - intros batches out Hagg. exact (aggregate_distinct_present batches out Hagg).
  - intros results df (_ & _ & ->)%transform_contracts_Ok. apply first_seen_NoDup.
  - intros w kws df (all & seen & _ & (_ & _ & ->)%transform_contracts_Ok)%run_tables.
    assert (NoDup (row_key <$> first_seen row_key ∅ (normalized_rows parse all))) as Hnd
      by apply first_seen_NoDup.
    split; [done|].
    change (@row_key (option Timestamp))
      with (py_key ∘ @GENERATED_INTERNAL_ID (option Timestamp)) in Hnd.
    rewrite list_fmap_compose in Hnd.
    by apply NoDup_fmap_1 in Hnd.
Qed.

(** C7. Counts only go down along the pipeline: the records fetched over
    all keywords are at least as many as the unique records the aggregation
    loop keeps, which are at least as many as the rows of the normalised
    table, be it the result of [transform_contracts] or a table found in
    the trace of the run. *)
Theorem counts_are_monotone w kws all seen :
  (keyword_loop w kws).2 = Ok (all, seen) →
  (length all ≤ total_fetched w kws)%nat ∧
  (∀ df, transform_contracts parse all = Ok df → (length df ≤ length all)%nat) ∧
  (∀ df, df ∈ tables_of (run parse w kws).1 → (length df ≤ length all)%nat).
Proof.
  intros Hloop.
  assert (∀ df, transform_contracts parse all = Ok df → (length df ≤ length all)%nat) as Hdf.
  { intros df (_ & _ & ->)%transform_contracts_Ok.
    etrans; [apply first_seen_length|]. by rewrite normalized_rows_length. }
  split; [|split; [done|]].
  - apply keyword_loop_Ok in Hloop as (_ & -> & _).
    etrans; [apply first_seen_length|].
    unfold total_fetched. by rewrite arrivals_length, list_fmap_compose.
  - intros df (all' & seen' & Hloop' & Htr)%run_tables.
    rewrite Hloop in Hloop'. injection Hloop' as <- <-. by apply Hdf.
Qed.


(** C4. In the row built from a record whose amount is absent, null or
    falsy, AWARD_AMOUNT is 0; in the row built from any other record it is
    the amount of the record. This holds for the row of every input record
    and for every row of the table the normaliser returns. *)
Theorem award_amount_defaults_to_zero results df :
  transform_contracts parse results = Ok df →
  (∀ i r, results !! i = Some r →
     ∃ row, normalized_rows parse results !! i = Some row ∧
            (amount_missing r → AWARD_AMOUNT row = JNum 0) ∧
            (¬ amount_missing r → AWARD_AMOUNT row = field r "Award Amount")) ∧
  (∀ row, row ∈ df →
     ∃ r, r ∈ results ∧ GENERATED_INTERNAL_ID row = gen_id r ∧
          (amount_missing r → AWARD_AMOUNT row = JNum 0) ∧
          (¬ amount_missing r → AWARD_AMOUNT row = field r "Award Amount")).
Proof.
  intros (_ & _ & ->)%transform_contracts_Ok.
  assert (∀ r, amount_missing r → truthy (field r "Award Amount") = false) as Hmiss.
  { intros r [members -> Habs|Hnull|Hf]; [|by rewrite Hnull|done].
    simpl. by rewrite Habs. }
  assert (∀ r, (amount_missing r → py_or (field r "Award Amount") (JNum 0) = JNum 0) ∧
               (¬ amount_missing r →
                py_or (field r "Award Amount") (JNum 0) = field r "Award Amount"))
    as Hrule.
  { intros r. unfold py_or. split.
    - intros Hm. by rewrite (Hmiss r Hm).
    - intros Hm. destruct (truthy _) eqn:Ht; [done|].
      destruct Hm. by apply amount_falsy. }
  split.
  - intros i r Hi. eexists. split.
    { unfold normalized_rows, date_rows. by rewrite !list_lookup_fmap, Hi. }
    apply Hrule.
  - intros row Hrow.
    eapply elem_of_sublist in Hrow; [|apply first_seen_sublist].
    unfold normalized_rows, date_rows in Hrow.
    apply list_elem_of_fmap in Hrow as (rec & -> & Hrec).
    apply list_elem_of_fmap in Hrec as (r & -> & Hr).
    exists r. split; [done|]. split; [done|]. apply Hrule.
Qed.


(** C8. When the aggregation loop ends with no record (as it does when
    every fetch fails, see [all_fetches_fail]), the run prints the totals
    and "No contracts found!" and returns: the trace after the loop holds
    nothing else, so no table is written and the warehouse is not
    contacted. Normalising the empty list would have raised. *)
Theorem nothing_found_ends_the_run w kws seen :
  (keyword_loop w kws).2 = Ok ([], seen) →
  run parse w kws
  = (banner ++ (keyword_loop w kws).1
       ++ [Print (nl +:+ str_mul "=" 60);
           Print "Total unique contracts: 0";
           Print "No contracts found!"],
     Ok ()) ∧
  tables_of (run parse w kws).1 = [] ∧
  warehouse_calls (run parse w kws).1 = [] ∧
  transform_contracts parse [] = Raise (Exn "KeyError" "'START_DATE'").
Proof.
  intros Hloop.
  assert (run parse w kws
          = (banner ++ (keyword_loop w kws).1
               ++ [Print (nl +:+ str_mul "=" 60);
                   Print "Total unique contracts: 0";
                   Print "No contracts found!"],
             Ok ())) as Hrun.
  { rewrite run_unfold, Hloop. done. }
  split; [done|]. rewrite Hrun. cbn [fst].
  pose proof (keyword_loop_only_fetches w kws) as Hquiet.
  split; [|split; [|done]].
  - rewrite !tables_of_app, (only_fetches_tables _ Hquiet). done.
  - rewrite !warehouse_calls_app, (only_fetches_no_warehouse _ Hquiet). done.
Qed.

(** C9. Whenever normalisation yields a table, the run writes the whole
    table to the fixed CSV path before the warehouse is contacted: up to
    the write no warehouse call occurs, the connection attempt follows it,
    and the run returns normally whatever the warehouse does. The table has
    at least one row. When delivery fails, the last lines printed report
    the error and the CSV path. *)
Theorem artifact_written_before_delivery w kws all seen df :
  (keyword_loop w kws).2 = Ok (all, seen) →
  transform_contracts parse all = Ok df →
  df ≠ [] ∧
  (run parse w kws).2 = Ok () ∧
  (∃ pre,
     (run parse w kws).1
     = pre ++ ToCsv csv_path df :: Print ("Saved to: " +:+ csv_path)
           :: (deliver w df).1 ∧
     warehouse_calls pre = []) ∧
  (∃ rest,
     (deliver w df).1
     = Print (nl +:+ "Connecting to Snowflake...")
       :: Connect "martydemo" "EPLAYGROUND" "GOVCONTRACTS" "EPLAYGROUND_WH"
       :: rest) ∧
  (∀ e, delivery_failure w df e →
     ∃ rest,
       (deliver w df).1
       = rest ++ [Print ("Error loading to Snowflake: " +:+ exn_msg e);
                  Print ("Data saved to CSV: " +:+ csv_path);
                  Print manual_upload_hint]).
Proof.
  intros Hloop Hdf. split; [|split; [|split; [|split]]].
  - apply transform_contracts_Ok in Hdf as (Hne & Hall & ->).
    destruct all as [|r all]; [done|]. apply Forall_cons in Hall as [Hr _].
    apply normalisable_iff in Hr as [_ [k Hk]].
    unfold normalized_rows, date_rows. simpl. unfold row_key at 1. simpl.
    unfold gen_id in Hk. rewrite Hk. by rewrite decide_False by set_solver.
  - rewrite run_unfold, Hloop. cbn [snd]. by rewrite (finish_table _ _ _ Hdf).
  - rewrite run_unfold, Hloop. cbn [fst]. rewrite (finish_table _ _ _ Hdf). cbn [fst].
    eexists (banner ++ (keyword_loop w kws).1 ++ summary all ++ [_]). split.
    + by rewrite <-!(assoc_L (++)).
    + rewrite !warehouse_calls_app.
      rewrite (only_fetches_no_warehouse _ (keyword_loop_only_fetches w kws)). done.
  - rewrite deliver_trace. destruct (deliver_try_connects w df) as [rest ->].
    by eexists.
  - intros e Hfail. unfold deliver, deliver_try, connect_snowflake, load_to_snowflake,
      deliver_except.
    destruct Hfail as [e H1|e H1 H2|nrows e H1 H2 H3].
    + rewrite H1. by eexists [_; _].
    + rewrite H1. cbn -[String.append]. rewrite H2. by eexists [_; _; _; _].
    + rewrite H1. cbn -[String.append]. rewrite H2. cbn -[String.append pretty].
      rewrite H3. by eexists [_; _; _; _; _; _].
Qed.

End normaliser.

(** * Main results: the fetcher, the aggregator and delivery *)

(** C6. The aggregator lists records in first-seen order. On batches it
    can process (lists of dicts whose truthy identifiers are hashable) it
    returns the first-seen filtering of all batches laid end to end. The
    output splits into one part per keyword, each a subsequence of that
    keyword's batch; a record is kept, at its place, when its identifier is
    truthy and no earlier record (of this or an earlier keyword) carried
    it, and is dropped otherwise; every record kept has a truthy
    identifier. *)
Theorem aggregate_first_seen_order batches :
  Forall usable_batch batches →
  ∃ out,
    aggregate batches = Ok out ∧
    out = first_seen agg_key ∅ (arrivals batches) ∧
    (∃ parts, out = concat parts ∧
              Forall2 sublist parts (batch_items <$> batches)) ∧
    (∀ r, r ∈ out → truthy (gen_id r) = true) ∧
    (∀ pre r post k,
       arrivals batches = pre ++ r :: post →
       agg_key r = Some k → k ∉ keys_of agg_key pre →
       out = first_seen agg_key ∅ pre
               ++ r :: first_seen agg_key ({[k]} ∪ keys_of agg_key pre) post) ∧
    (∀ pre r post,
       arrivals batches = pre ++ r :: post →
       (truthy (gen_id r) = false ∨
        ∃ k, agg_key r = Some k ∧ k ∈ keys_of agg_key pre) →
       out = first_seen agg_key ∅ (pre ++ post)).
Proof.
  intros Hall. eexists. split; [by apply aggregate_Ok|].
  split; [done|]. split; [|split; [|split]].
  - apply first_seen_parts.
  - intros r (k & (_ & Ht & _)%agg_key_Some & _)%first_seen_fresh. done.
  - intros pre r post k -> Hk Hfresh.
    rewrite (first_seen_keeps _ _ _ _ _ k) by set_solver.
    by rewrite (left_id_L ∅ (∪)).
  - intros pre r post -> Hdrop. apply first_seen_drops.
    intros k Hk. right. destruct Hdrop as [Hf|(k' & Hk' & Hin)].
    + apply agg_key_Some in Hk as (_ & Ht & _). congruence.
    + congruence.
Qed.


(** C2. The connection is closed when the bulk load returns, but not when
    it raises: with a warehouse that accepts the connection and rejects the
    load, the run connects, attempts the load and never calls [close],
    whereas the same run against a warehouse that accepts the load ends
    with [close]. *)
Theorem load_failure_leaves_connection_open :
  snowflake_connect world_load_fails = Ok () ∧
  (∃ df, warehouse_calls (main iso_date world_load_fails).1
         = [Connect "martydemo" "EPLAYGROUND" "GOVCONTRACTS" "EPLAYGROUND_WH";
            WritePandas df "RAW_CONTRACTS"]) ∧
  (∃ df, warehouse_calls (main iso_date world_ok).1
         = [Connect "martydemo" "EPLAYGROUND" "GOVCONTRACTS" "EPLAYGROUND_WH";
            WritePandas df "RAW_CONTRACTS";
            Close]).
Proof.
  split; [done|]. split; eexists; vm_compute; reflexivity.
Qed.

(** ** The scenarios of the specification, evaluated *)

(** "data analytics" returns A, B, C and "big data" returns B, D:
    aggregation yields A, B, C, D. *)
Example scenario_overlap :
  (keyword_loop world_ok SEARCH_KEYWORDS).2
  = Ok (sample_awards, keys_of agg_key sample_awards).
Proof. vm_compute. reflexivity. Qed.

(** Record D has an empty amount and a start date that does not parse: its
    row has AWARD_AMOUNT 0 and a null START_DATE. *)
Example scenario_row_D :
  (λ row, (GENERATED_INTERNAL_ID row, AWARD_AMOUNT row, START_DATE row))
    <$> normalized_rows iso_date sample_awards !! 3%nat
  = Some (JStr "D", JNum 0, None).
Proof. vm_compute. reflexivity. Qed.

(** Every fetch fails: nothing is written or loaded. *)
Example scenario_offline :
  (main iso_date world_offline).2 = Ok () ∧
  last (main iso_date world_offline).1 = Some (Print "No contracts found!") ∧
  tables_of (main iso_date world_offline).1 = [].
Proof. vm_compute. done. Qed.

(** The warehouse refuses the connection: the CSV was written with all four
    rows and its path is printed. *)
Example scenario_no_warehouse :
  tables_of (main iso_date world_no_warehouse).1
    = [normalized_rows iso_date sample_awards] ∧
  rev (main iso_date world_no_warehouse).1 !! 1%nat
    = Some (Print "Data saved to CSV: /tmp/govcontracts_data.csv").
Proof. vm_compute. done. Qed.

Lemma generated_ids_unique_witness :
  normalized_rows iso_date sample_awards ∈ tables_of (main iso_date world_ok).1 ∧
  NoDup (row_key <$> normalized_rows iso_date sample_awards).
Proof.
  assert (normalized_rows iso_date sample_awards
            ∈ tables_of (main iso_date world_ok).1) as Hin.
  { vm_compute. left. }
  split; [exact Hin|].
  exact (proj1 (proj2 (proj2 (generated_ids_unique iso_date)) world_ok _ _ Hin)).
Defined.

Lemma aggregate_first_seen_order_witness :
  Forall usable_batch sample_batches ∧
  aggregate sample_batches = Ok sample_awards.
Proof.
  assert (Forall usable_batch sample_batches) as Hall.
  { repeat (constructor; [repeat (constructor; [intros _; vm_compute; eauto|])|]);
      constructor. }
  split; [exact Hall|].
  destruct (aggregate_first_seen_order sample_batches Hall) as (out & Hagg & -> & _).
  exact Hagg.
Defined.

Lemma counts_are_monotone_witness :
  (keyword_loop world_ok SEARCH_KEYWORDS).2
    = Ok (sample_awards, keys_of agg_key sample_awards) ∧
  (length sample_awards ≤ total_fetched world_ok SEARCH_KEYWORDS)%nat.
Proof.
  assert ((keyword_loop world_ok SEARCH_KEYWORDS).2
          = Ok (sample_awards, keys_of agg_key sample_awards)) as Hloop
    by (vm_compute; reflexivity).
  split; [exact Hloop|].
  exact (proj1 (counts_are_monotone iso_date world_ok SEARCH_KEYWORDS _ _ Hloop)).
Defined.



Lemma award_amount_defaults_to_zero_witness :
  transform_contracts iso_date sample_awards
    = Ok (normalized_rows iso_date sample_awards) ∧
  ∃ row, normalized_rows iso_date sample_awards !! 3%nat = Some row ∧
         (amount_missing award_D → AWARD_AMOUNT row = JNum 0) ∧
         (¬ amount_missing award_D → AWARD_AMOUNT row = field award_D "Award Amount").
Proof.
  assert (transform_contracts iso_date sample_awards
          = Ok (normalized_rows iso_date sample_awards)) as Hdf
    by (vm_compute; reflexivity).
  split; [exact Hdf|].
  exact (proj1 (award_amount_defaults_to_zero iso_date sample_awards _ Hdf)
           3%nat award_D eq_refl).
Defined.


Lemma nothing_found_ends_the_run_witness :
  (keyword_loop world_offline SEARCH_KEYWORDS).2 = Ok ([], ∅) ∧
  (main iso_date world_offline).2 = Ok () ∧
  warehouse_calls (main iso_date world_offline).1 = [].
Proof.
  assert ((keyword_loop world_offline SEARCH_KEYWORDS).2 = Ok ([], ∅)) as Hloop
    by (vm_compute; reflexivity).
  split; [exact Hloop|].
  destruct (nothing_found_ends_the_run iso_date world_offline SEARCH_KEYWORDS ∅ Hloop)
    as (Hrun & _ & Hcalls & _).
  split; [|exact Hcalls].
  unfold main. rewrite Hrun. reflexivity.
Defined.

Lemma artifact_written_before_delivery_witness :
  (keyword_loop world_load_fails SEARCH_KEYWORDS).2
    = Ok (sample_awards, keys_of agg_key sample_awards) ∧
  transform_contracts iso_date sample_awards
    = Ok (normalized_rows iso_date sample_awards) ∧
  (main iso_date world_load_fails).2 = Ok () ∧
  ∃ pre,
    (main iso_date world_load_fails).1
    = pre ++ ToCsv csv_path (normalized_rows iso_date sample_awards)
          :: Print ("Saved to: " +:+ csv_path)
          :: (deliver world_load_fails (normalized_rows iso_date sample_awards)).1 ∧
    warehouse_calls pre = [].
Proof.
  assert ((keyword_loop world_load_fails SEARCH_KEYWORDS).2
          = Ok (sample_awards, keys_of agg_key sample_awards)) as Hloop
    by (vm_compute; reflexivity).
  assert (transform_contracts iso_date sample_awards
          = Ok (normalized_rows iso_date sample_awards)) as Hdf
    by (vm_compute; reflexivity).
  split; [exact Hloop|]. split; [exact Hdf|].
  destruct (artifact_written_before_delivery iso_date world_load_fails
              SEARCH_KEYWORDS _ _ _ Hloop Hdf) as (_ & Hres & Hpre & _).
  split; [exact Hres|exact Hpre].
Defined.

(** * Further properties of the fetcher and the aggregator *)

Lemma foldM_app {S A : Type} (step : S → A → outcome S) (s : S) (l1 l2 : list A) :
  foldM step s (l1 ++ l2) = foldM step s l1 ≫= λ s', foldM step s' l2.
Proof.
  revert s. induction l1 as [|x l1 IH]; intros s; simpl; [done|].
  destruct (step s x) as [s'|e]; simpl; [apply IH | done].
Qed.

Lemma requests_of_app t1 t2 : requests_of (t1 ++ t2) = requests_of t1 ++ requests_of t2.
Proof. apply omap_app. Qed.

Lemma arrivals_app bs1 bs2 : arrivals (bs1 ++ bs2) = arrivals bs1 ++ arrivals bs2.
Proof. unfold arrivals. by rewrite fmap_app, concat_app. Qed.

Lemma elem_of_arrivals x bs :
  x ∈ arrivals bs ↔ ∃ b, b ∈ bs ∧ x ∈ batch_items b.
Proof.
  unfold arrivals. induction bs as [|b bs IH]; csimpl.
  - split; [by intros ?%elem_of_nil|by intros (? & ?%elem_of_nil & _)].
  - rewrite elem_of_app, IH. split.
    + intros [?|(b' & ? & ?)]; [exists b|exists b']; split; try done; by constructor.
    + intros (b' & [->|?]%elem_of_cons & ?); [by left|right; by exists b'].
Qed.

(** The number of records kept is the number of new keys. *)
Lemma first_seen_size {A : Type} (key : A → option pykey) seen (l : list A) :
  length (first_seen key seen l) = size (keys_of key l ∖ seen).
Proof.
  revert seen. induction l as [|x l IH]; intros seen; simpl.
  - rewrite keys_of_nil. symmetry. apply size_empty_iff. set_solver.
  - destruct (key x) as [k|] eqn:Hk; [case_decide|].
    + rewrite IH, (keys_of_cons_Some key x k) by done. f_equal. set_solver.
    + simpl. rewrite IH, (keys_of_cons_Some key x k) by done.
      assert (({[k]} ∪ keys_of key l) ∖ seen
              = {[k]} ∪ keys_of key l ∖ ({[k]} ∪ seen)) as ->.
      { apply set_eq; intros y. destruct (decide (y = k)); set_solver. }
      pose proof (size_union ({[k]} : gset pykey)
                    (keys_of key l ∖ ({[k]} ∪ seen))) as Hsize.
      rewrite Hsize by set_solver.
      pose proof (size_singleton (C:=gset pykey) k) as ->. done.
    + by rewrite IH, keys_of_cons_None.
Qed.

Lemma fetch_contracts_requests w keyword lim :
  requests_of (fetch_contracts w keyword lim).1 = [build_params w keyword lim].
Proof.
  unfold fetch_contracts, fetch_try, fetch_except.
  destruct (requests_post w _) as [resp|e]; [|done].
  cbn -[String.append raise_for_status].
  destruct (raise_for_status resp) as [[]|e]; [|done].
  cbn -[String.append].
  destruct (body_json resp) as [data|e]; [|done].
  cbn -[String.append py_get].
  by destruct (py_get data _ _).
Qed.

Lemma keyword_step_requests w st keyword :
  requests_of (keyword_step w st keyword).1 = [build_params w keyword 200].
Proof.
  unfold keyword_step. rewrite run_bind_trace, requests_of_app. cbn [print emit fst snd].
  rewrite run_bind_trace, requests_of_app, fetch_contracts_requests.
  rewrite fetch_contracts_result.
  destruct (extend_with st (fetched w keyword)) as [[[all seen] n]|e]; done.
Qed.

Lemma usable_agg_key r : is_Some (agg_key r) → usable r.
Proof.
  intros [k (Hd & _ & Hk)%agg_key_Some]. destruct r; try done.
  intros _. by rewrite Hk.
Qed.

(** X1. A call of [fetch_contracts] sends exactly one request, to the fixed
    URL with the body built from its arguments and a timeout of 60, and
    never repeats it; it prints at most one line, and only when it returns
    the empty list in place of a result. *)
Theorem fetch_sends_one_request w keyword lim :
  (∃ results,
     fetch_contracts w keyword lim
     = ([Post USA_SPENDING_API (build_params w keyword lim) 60], Ok results)) ∨
  (∃ e,
     fetch_contracts w keyword lim
     = ([Post USA_SPENDING_API (build_params w keyword lim) 60;
         Print ("Error fetching '" +:+ keyword +:+ "': " +:+ exn_msg e)],
        Ok (JArr []))).
Proof.
  unfold fetch_contracts, fetch_try, fetch_except.
  destruct (requests_post w _) as [resp|e]; [|right; by exists e].
  cbn -[String.append raise_for_status].
  destruct (raise_for_status resp) as [[]|e]; [|right; by exists e].
  cbn -[String.append].
  destruct (body_json resp) as [data|e]; [|right; by exists e].
  cbn -[String.append py_get].
  destruct (py_get data _ _) as [v|e]; [left; by exists v|right; by exists e].
Qed.

(** X3. The keyword loop sends one request per keyword, in keyword order,
    each with limit 200: the requests in its trace are a prefix of the
    keyword list's requests, and all of them when the loop completes. A
    failed fetch neither repeats a request nor skips a later keyword. *)
Theorem one_request_per_keyword w kws :
  requests_of (keyword_loop w kws).1
    `prefix_of` ((λ kw, build_params w kw 200) <$> kws) ∧
  (∀ st, (keyword_loop w kws).2 = Ok st →
         requests_of (keyword_loop w kws).1
         = (λ kw, build_params w kw 200) <$> kws).
Proof.
  unfold keyword_loop. generalize (([], ∅) : list json * gset pykey).
  induction kws as [|kw kws IH]; intros st0; simpl.
  - split; [done|by intros].
  - rewrite run_bind_trace, run_bind_result, requests_of_app, keyword_step_requests.
    destruct (keyword_step w st0 kw).2 as [st1|e]; simpl.
    + destruct (IH st1) as [Hpre Heq]. split; [by apply prefix_cons|].
      intros st Hst. f_equal. by apply (Heq st).
    + split; [apply prefix_cons, prefix_nil|done].
Qed.

(** X4. When the keyword loop completes, [seen_ids] is exactly the set of
    identifiers of the records in [all_contracts], one identifier per
    record, and it holds the identifier of every fetched record that has a
    usable one. *)
Theorem seen_ids_are_the_kept_identifiers w kws all seen :
  (keyword_loop w kws).2 = Ok (all, seen) →
  seen = keys_of agg_key all ∧
  size seen = length all ∧
  (∀ r k, r ∈ arrivals (fetched w <$> kws) → agg_key r = Some k → k ∈ seen).
Proof.
  intros (_ & -> & ->)%keyword_loop_Ok. split; [|split].
  - by rewrite first_seen_keys, difference_empty_L.
  - by rewrite first_seen_size, difference_empty_L.
  - intros r k Hr Hk. apply elem_of_keys_of. eauto.
Qed.

(** X5. The aggregator only appends: what it returns for the first
    keywords is a prefix of what it returns for all of them. *)
Theorem aggregate_grows_by_appending bs1 bs2 out :
  aggregate (bs1 ++ bs2) = Ok out →
  ∃ out1, aggregate bs1 = Ok out1 ∧ out1 `prefix_of` out.
Proof.
  intros [[Hall1 _]%Forall_app ->]%aggregate_Ok.
  exists (first_seen agg_key ∅ (arrivals bs1)). split; [by apply aggregate_Ok|].
  rewrite arrivals_app, first_seen_app. by apply prefix_app_r.
Qed.

(** X6. Aggregating what the aggregator returned gives it back unchanged. *)
Theorem aggregate_idempotent bs out :
  aggregate bs = Ok out → aggregate [JArr out] = Ok out.
Proof.
  intros [Hall Hnd]%aggregate_distinct_present. apply aggregate_Ok. split.
  - constructor; [|constructor]. unfold usable_batch. simpl.
    eapply Forall_impl; [done|]. apply usable_agg_key.
  - unfold arrivals. simpl. rewrite (right_id_L [] (++)).
    symmetry. apply first_seen_id; [done..|set_solver].
Qed.

(** X7. The order of the keywords decides which copy of a record is kept
    and where, but not which identifiers are kept nor how many records. *)
Theorem aggregate_keyword_order bs bs' out :
  bs ≡ₚ bs' → aggregate bs = Ok out →
  ∃ out', aggregate bs' = Ok out' ∧
          keys_of agg_key out' = keys_of agg_key out ∧
          length out' = length out.
Proof.
  intros Hperm [Hall ->]%aggregate_Ok.
  exists (first_seen agg_key ∅ (arrivals bs')).
  assert (keys_of agg_key (arrivals bs') = keys_of agg_key (arrivals bs)) as Hkeys.
  { apply set_eq. intros k. rewrite !elem_of_keys_of.
    setoid_rewrite elem_of_arrivals. by setoid_rewrite Hperm. }
  split; [|split].
  - apply aggregate_Ok. split; [by rewrite <-Hperm|done].
  - by rewrite !first_seen_keys, Hkeys.
  - by rewrite !first_seen_size, Hkeys.
Qed.

(** X8. One iteration of the keyword loop keeps what was collected and
    appends the new records: [all_contracts] grows by the number it reports
    as new, which is at most the number fetched, and [seen_ids] grows by
    the same number and loses nothing. *)
Theorem extend_with_counts all seen results all' seen' n :
  extend_with (all, seen) results = Ok (all', seen', n) →
  all `prefix_of` all' ∧
  length all' = (length all + n)%nat ∧
  (n ≤ py_len results)%nat ∧
  seen ⊆ seen' ∧
  size seen' = (size seen + n)%nat.
Proof.
  intros (_ & -> & -> & ->)%extend_with_Ok.
  split; [by apply prefix_app_r|]. split; [by rewrite length_app|].
  split; [|split].
  - etrans; [apply first_seen_length|]. unfold py_len, batch_items.
    by destruct (py_iter results).
  - set_solver.
  - by rewrite size_union_alt, first_seen_size.
Qed.

(** * Further properties of the normaliser and of whole runs *)




Lemma extend_with_not_iterable st b e :
  py_iter b = Raise e → extend_with st b = Raise e.
Proof. intros Hiter. destruct st. unfold extend_with. by rewrite Hiter. Qed.


Section runs.

Context (parse : list json → json → option Timestamp).






(** X12. A batch that cannot be iterated (None, a boolean, a number) ends
    the run with the [TypeError] of the [for] statement as soon as its
    keyword is reached, whatever the keywords after it would return. *)
Theorem non_iterable_results_abort_run w kws1 kw kws2 e :
  Forall usable_batch (fetched w <$> kws1) →
  py_iter (fetched w kw) = Raise e →
  (run parse w (kws1 ++ kw :: kws2)).2 = Raise e.
Proof.
  intros Hall Hiter. rewrite run_unfold.
  assert ((keyword_loop w (kws1 ++ kw :: kws2)).2 = Raise e) as ->; [|done].
  rewrite keyword_loop_result, fmap_app, foldM_app.
  assert (foldM (λ st b, fst <$> extend_with st b) ([], ∅) (fetched w <$> kws1)
          = Ok (first_seen agg_key ∅ (arrivals (fetched w <$> kws1)),
                keys_of agg_key (arrivals (fetched w <$> kws1)))) as ->.
  { apply agg_fold_Ok. split; [done|]. by rewrite (left_id_L ∅ (∪)). }
  cbn [mbind outcome_bind]. rewrite fmap_cons. cbn [foldM].
  by rewrite (extend_with_not_iterable _ _ _ Hiter).
Qed.



(** X15. AWARD_AMOUNT is never null in the normalised table: it is either
    a truthy value or the number 0. *)
Theorem award_amount_never_null results df row :
  transform_contracts parse results = Ok df → row ∈ df →
  AWARD_AMOUNT row ≠ JNull ∧
  (truthy (AWARD_AMOUNT row) = true ∨ AWARD_AMOUNT row = JNum 0).
Proof.
  intros (_ & _ & ->)%transform_contracts_Ok Hrow.
  eapply elem_of_sublist in Hrow; [|apply first_seen_sublist].
  unfold normalized_rows, date_rows in Hrow.
  apply list_elem_of_fmap in Hrow as (rec & -> & Hrec).
  apply list_elem_of_fmap in Hrec as (r & -> & Hr).
  simpl. unfold py_or. destruct (truthy (field r "Award Amount")) eqn:Ht.
  - split; [|by left]. intros Hnull. by rewrite Hnull in Ht.
  - split; [done|by right].
Qed.


End runs.

(** ** The further properties, evaluated on the sample data *)

Lemma fetch_contracts_success_witness :
  requests_post world_ok (build_params world_ok "data analytics" 200)
    = http_ok (JObj [("results", JArr [award_A; award_B; award_C])]) ∧
  fetch_contracts world_ok "data analytics" 200
    = ([Post USA_SPENDING_API (build_params world_ok "data analytics" 200) 60],
       Ok (JArr [award_A; award_B; award_C])).
Proof.
  assert (requests_post world_ok (build_params world_ok "data analytics" 200)
          = http_ok (JObj [("results", JArr [award_A; award_B; award_C])])) as Hpost
    by reflexivity.
  split; [exact Hpost|].
  exact (fetch_contracts_success world_ok "data analytics" 200 _ _
           Hpost eq_refl eq_refl).
Defined.

Lemma seen_ids_are_the_kept_identifiers_witness :
  (keyword_loop world_ok SEARCH_KEYWORDS).2
    = Ok (sample_awards, keys_of agg_key sample_awards) ∧
  size (keys_of agg_key sample_awards) = length sample_awards.
Proof.
  assert ((keyword_loop world_ok SEARCH_KEYWORDS).2
          = Ok (sample_awards, keys_of agg_key sample_awards)) as Hloop
    by (vm_compute; reflexivity).
  split; [exact Hloop|].
  exact (proj1 (proj2 (seen_ids_are_the_kept_identifiers world_ok SEARCH_KEYWORDS
                         _ _ Hloop))).
Defined.

Lemma aggregate_grows_by_appending_witness :
  aggregate ([JArr [award_A; award_B; award_C]] ++ [JArr [award_B; award_D]])
    = Ok sample_awards ∧
  ∃ out1, aggregate [JArr [award_A; award_B; award_C]] = Ok out1 ∧
          out1 `prefix_of` sample_awards.
Proof.
  assert (aggregate ([JArr [award_A; award_B; award_C]] ++ [JArr [award_B; award_D]])
          = Ok sample_awards) as Hagg by (vm_compute; reflexivity).
  split; [exact Hagg|].
  exact (aggregate_grows_by_appending _ _ _ Hagg).
Defined.

Lemma aggregate_idempotent_witness :
  aggregate sample_batches = Ok sample_awards ∧
  aggregate [JArr sample_awards] = Ok sample_awards.
Proof.
  assert (aggregate sample_batches = Ok sample_awards) as Hagg
    by (vm_compute; reflexivity).
  split; [exact Hagg|].
  exact (aggregate_idempotent _ _ Hagg).
Defined.

Lemma aggregate_keyword_order_witness :
  sample_batches ≡ₚ [JArr [award_B; award_D]; JArr [award_A; award_B; award_C]] ∧
  aggregate sample_batches = Ok sample_awards ∧
  ∃ out', aggregate [JArr [award_B; award_D]; JArr [award_A; award_B; award_C]]
            = Ok out' ∧
          keys_of agg_key out' = keys_of agg_key sample_awards ∧
          length out' = length sample_awards.
Proof.
  assert (sample_batches
            ≡ₚ [JArr [award_B; award_D]; JArr [award_A; award_B; award_C]]) as Hperm
    by apply Permutation_swap.
  assert (aggregate sample_batches = Ok sample_awards) as Hagg
    by (vm_compute; reflexivity).
  split; [exact Hperm|]. split; [exact Hagg|].
  exact (aggregate_keyword_order _ _ _ Hperm Hagg).
Defined.

Lemma extend_with_counts_witness :
  extend_with ([award_A; award_B; award_C],
               keys_of agg_key [award_A; award_B; award_C])
              (JArr [award_B; award_D])
    = Ok (sample_awards, keys_of agg_key sample_awards, 1%nat) ∧
  length sample_awards = (length [award_A; award_B; award_C] + 1)%nat.
Proof.
  assert (extend_with ([award_A; award_B; award_C],
                       keys_of agg_key [award_A; award_B; award_C])
                      (JArr [award_B; award_D])
          = Ok (sample_awards, keys_of agg_key sample_awards, 1%nat)) as Hext
    by (vm_compute; reflexivity).
  split; [exact Hext|].
  exact (proj1 (proj2 (extend_with_counts _ _ _ _ _ _ Hext))).
Defined.


Lemma non_iterable_results_abort_run_witness :
  Forall usable_batch (fetched world_null_results <$> []) ∧
  py_iter (fetched world_null_results "data analytics")
    = Raise (Exn "TypeError" "'NoneType' object is not iterable") ∧
  (run iso_date world_null_results ([] ++ "data analytics" :: ["big data"])).2
    = Raise (Exn "TypeError" "'NoneType' object is not iterable").
Proof.
  assert (Forall usable_batch (fetched world_null_results <$> [])) as Hall
    by constructor.
  assert (py_iter (fetched world_null_results "data analytics")
          = Raise (Exn "TypeError" "'NoneType' object is not iterable")) as Hiter
    by (vm_compute; reflexivity).
  split; [exact Hall|]. split; [exact Hiter|].
  exact (non_iterable_results_abort_run iso_date world_null_results
           [] "data analytics" ["big data"] _ Hall Hiter).
Defined.


Lemma award_amount_never_null_witness :
  transform_contracts iso_date [award_D] = Ok (normalized_rows iso_date [award_D]) ∧
  with_dates (raw_record award_D) None (Some 20241231)
    ∈ normalized_rows iso_date [award_D] ∧
  AWARD_AMOUNT (with_dates (raw_record award_D) None (Some 20241231)) ≠ JNull.
Proof.
  assert (transform_contracts iso_date [award_D]
          = Ok (normalized_rows iso_date [award_D])) as Hdf
    by (vm_compute; reflexivity).
  assert (with_dates (raw_record award_D) None (Some 20241231)
            ∈ normalized_rows iso_date [award_D]) as Hrow
    by (vm_compute; left).
  split; [exact Hdf|]. split; [exact Hrow|].
  exact (proj1 (award_amount_never_null iso_date _ _ _ Hdf Hrow)).
Defined.


(** * Aborted runs and tables with repeated identifiers *)

Lemma unusable_extend_raises st b :
  ¬ usable_batch b → ∃ e, extend_with st b = Raise e.
Proof.
  intros Hb. destruct st as [all seen].
  destruct (extend_with (all, seen) b) as [[[all' seen'] n]|e] eqn:Hext; [|by eauto].
  by apply extend_with_Ok in Hext as (? & _).
Qed.

Lemma usable_extend_returns st b :
  usable_batch b → ∃ st', fst <$> extend_with st b = Ok st'.
Proof.
  intros Hb. destruct st as [all seen]. eexists. apply fmap_Ok.
  eexists (_, _, _). split; [|done]. by apply extend_with_Ok.
Qed.

Lemma keyword_loop_stops w st kws1 kw kws2 :
  Forall usable_batch (fetched w <$> kws1) → ¬ usable_batch (fetched w kw) →
  ∃ e, (foldR (keyword_step w) st (kws1 ++ kw :: kws2)).2 = Raise e ∧
       requests_of (foldR (keyword_step w) st (kws1 ++ kw :: kws2)).1
       = (λ k, build_params w k 200) <$> (kws1 ++ [kw]).
Proof.
  intros Hall Hbad. revert st.
  induction kws1 as [|kw1 kws1 IH]; intros st; cbn [app foldR].
  - destruct (unusable_extend_raises st _ Hbad) as [e He]. exists e.
    rewrite run_bind_result, run_bind_trace, requests_of_app, keyword_step_requests.
    rewrite keyword_step_result, He. done.
  - apply Forall_cons in Hall as [Hb Hall].
    destruct (usable_extend_returns st _ Hb) as [st' Hst'].
    destruct (IH Hall st') as (e & Hres & Hreq). exists e.
    rewrite run_bind_result, run_bind_trace, requests_of_app, keyword_step_requests.
    rewrite keyword_step_result, Hst'. cbn [mbind outcome_bind].
    split; [done|]. by rewrite Hreq.
Qed.

Section more_runs.

Context (parse : list json → json → option Timestamp).

(** X17. The first batch the aggregation loop cannot process ends the run
    with an exception: the keywords after it are never requested, whatever
    they would return. *)
Theorem unusable_batch_stops_the_run w kws1 kw kws2 :
  Forall usable_batch (fetched w <$> kws1) → ¬ usable_batch (fetched w kw) →
  ∃ e, (run parse w (kws1 ++ kw :: kws2)).2 = Raise e ∧
       requests_of (run parse w (kws1 ++ kw :: kws2)).1
       = (λ k, build_params w k 200) <$> (kws1 ++ [kw]).
Proof.
  intros Hall Hbad.
  destruct (keyword_loop_stops w ([], ∅) kws1 kw kws2 Hall Hbad) as (e & Hres & Hreq).
  fold (keyword_loop w (kws1 ++ kw :: kws2)) in Hres, Hreq.
  exists e. rewrite run_unfold, Hres. cbn [fst snd]. split; [done|].
  by rewrite requests_of_app, Hreq.
Qed.



End more_runs.

Lemma unusable_batch_stops_the_run_witness :
  Forall usable_batch (fetched world_null_results <$> []) ∧
  ¬ usable_batch (fetched world_null_results "data analytics") ∧
  ∃ e, (run iso_date world_null_results ([] ++ "data analytics" :: ["big data"])).2
         = Raise e ∧
       requests_of (run iso_date world_null_results
                      ([] ++ "data analytics" :: ["big data"])).1
       = (λ k, build_params world_null_results k 200) <$> ([] ++ ["data analytics"]).
Proof.
  assert (Forall usable_batch (fetched world_null_results <$> [])) as Hall
    by constructor.
  assert (¬ usable_batch (fetched world_null_results "data analytics")) as Hbad.
  { intros Hb. vm_compute in Hb. exact Hb. }
  split; [exact Hall|]. split; [exact Hbad|].
  exact (unusable_batch_stops_the_run iso_date world_null_results
           [] "data analytics" ["big data"] Hall Hbad).
Defined.

